(** * submit-addon: the submission client (src/index.ts)

    A shallow embedding of the [Client] class: the two pollers
    ([waitForValidation], [waitForApproval]) as event-driven state
    machines over the timers and the awaits the source has, the response
    interpreters ([getJson], [saveFile]), the request builders and the
    two promise chains ([submitAddon], [submitVersion]). *)

From Stdlib Require Import ZArith String Ascii List Bool Lia.
From stdpp Require Import base option list strings gmap pretty.
Import ListNotations.

Set Warnings "-register-all".

Local Open Scope string_scope.
Local Open Scope list_scope.
Local Open Scope Z_scope.

(** ** JavaScript values *)

(** What [JSON.parse] and [response.json()] produce, plus [undefined].
    An object keeps its properties in insertion order.  Numbers are the
    integer-valued ones. *)
Inductive value : Type :=
| VUndefined
| VNull
| VBool (b : bool)
| VNum (n : Z)
| VStr (s : string)
| VArr (items : list value)
| VObj (props : list (string * value)).

(** Errors that can settle a promise. *)
Inductive error : Type :=
| Error (message : string)
    (* [new Error(message)], the only error the client constructs *)
| TypeError (base : value) (prop : string)
    (* the runtime's "Cannot read properties of null/undefined" *)
| NotPrimitive (v : value)
    (* the runtime's "Cannot convert object to primitive value" *)
| SyntaxError
    (* [response.json()] on a body that is not JSON *)
| SystemError (code : string).
    (* network and file-system failures raised below the client *)

(** The result of an expression that may throw. *)
Inductive completion (A : Type) : Type :=
| Normal (a : A)
| Throw (e : error).
Arguments Normal {A} a.
Arguments Throw {A} e.

#[global] Instance completion_ret : MRet completion := fun _ a => Normal a.
#[global] Instance completion_bind : MBind completion := fun _ _ k c =>
  match c with
  | Normal a => k a
  | Throw e => Throw e
  end.

(** [!!v] is [negb (truthy v)]. *)
Definition truthy (v : value) : bool :=
  match v with
  | VUndefined | VNull => false
  | VBool b => b
  | VNum n => negb (n =? 0)
  | VStr s => negb (String.eqb s "")
  | VArr _ | VObj _ => true
  end.

Fixpoint obj_lookup (k : string) (props : list (string * value)) : option value :=
  match props with
  | [] => None
  | (k', v) :: rest => if String.eqb k' k then Some v else obj_lookup k rest
  end.

(** [v.k] for the property names the client reads (none of them is
    [length] or an index, so strings, arrays, numbers and booleans have
    no such property). *)
Definition Get (v : value) (k : string) : completion value :=
  match v with
  | VUndefined | VNull => Throw (TypeError v k)
  | VObj props => Normal (default VUndefined (obj_lookup k props))
  | _ => Normal VUndefined
  end.

(** [v.k], or [undefined] where the read throws. *)
Definition field (v : value) (k : string) : value :=
  match Get v k with
  | Normal x => x
  | Throw _ => VUndefined
  end.

(** [String(v)], as a template literal applies it, for the values it
    converts without throwing and the numbers a double holds exactly
    (see [String_exact] below). *)
Fixpoint ToString (v : value) : string :=
  match v with
  | VUndefined => "undefined"
  | VNull => "null"
  | VBool true => "true"
  | VBool false => "false"
  | VNum n => pretty n
  | VStr s => s
  | VArr items =>
      let fix join (l : list value) : string :=
        match l with
        | [] => ""
        | x :: rest =>
            let sx := match x with
                      | VUndefined | VNull => ""
                      | _ => ToString x
                      end in
            match rest with
            | [] => sx
            | _ :: _ => sx +:+ "," +:+ join rest
            end
        end in
      join items
  | VObj _ => "[object Object]"
  end.

(** [String(v)] throws for an object with an own property [toString]: a
    parsed value is never callable, and [Object.prototype.valueOf] gives
    back the object. An array converts its elements, [null] and
    [undefined] apart. *)
Fixpoint String_throws (v : value) : bool :=
  match v with
  | VObj props =>
      match obj_lookup "toString" props with
      | Some _ => true
      | None => false
      end
  | VArr items => existsb String_throws items
  | _ => false
  end.

(** The numbers a double holds exactly, which [String] writes in decimal
    (it writes an exponent from 1e21 on). *)
Fixpoint numbers_exact (v : value) : bool :=
  match v with
  | VNum n => Z.abs n <=? 2 ^ 53 - 1
  | VArr items => forallb numbers_exact items
  | _ => true
  end.

(** Where [ToString v] is what [String(v)] gives. *)
Definition String_exact (v : value) : Prop :=
  String_throws v = false /\ numbers_exact v = true.

(** [new Error(v)]: the message is [String(v)], and empty when [v] is
    [undefined]. Where [String(v)] throws, the promise that was to be
    rejected with the new error is rejected with the TypeError instead
    (the executor and the [catch] block see to that). *)
Definition new_Error (v : value) : error :=
  match v with
  | VUndefined => Error ""
  | _ => if String_throws v then NotPrimitive v else Error (ToString v)
  end.

(** [{ k: v, ...rest }] assigns [k] where it stands, or appends it. *)
Fixpoint obj_set (k : string) (v : value) (props : list (string * value))
  : list (string * value) :=
  match props with
  | [] => [(k, v)]
  | (k', v') :: rest =>
      if String.eqb k' k then (k', v) :: rest else (k', v') :: obj_set k v rest
  end.

Fixpoint indexed (i : nat) (l : list value) : list (string * value) :=
  match l with
  | [] => []
  | x :: rest => (pretty i, x) :: indexed (S i) rest
  end.

(** The own enumerable properties that [...v] copies. *)
Definition own_props (v : value) : list (string * value) :=
  match v with
  | VObj props => props
  | VArr items => indexed 0 items
  | VStr s => indexed 0 (map (fun c => VStr (String c EmptyString)) (list_ascii_of_string s))
  | _ => []
  end.

(** [{ ...target, ...source }] on the property list of [target]. *)
Definition spread (target : list (string * value)) (source : value)
  : list (string * value) :=
  fold_left (fun acc kv => obj_set (fst kv) (snd kv) acc) (own_props source) target.

(** ** The client and what it talks to *)

(** The fields the constructor stores ([logger] is the log of [World]). *)
Record Client : Type := {
  apiKey : string;
  apiSecret : string;
  apiUrlPrefix : string;
  apiJwtExpiresIn : Z;
  debugLogging : bool;
  validationCheckInterval : Z;
  validationCheckTimeout : Z;
  approvalCheckInterval : Z;
  approvalCheckTimeout : Z;
  downloadDir : string
}.

(** The constructor with its defaults; [cwd] is [process.cwd()]. *)
Definition new_Client (key secret prefix cwd : string) : Client :=
  {| apiKey := key;
     apiSecret := secret;
     apiUrlPrefix := prefix;
     apiJwtExpiresIn := 60 * 5;
     debugLogging := false;
     validationCheckInterval := 1000;
     validationCheckTimeout := 300000;
     approvalCheckInterval := 1000;
     approvalCheckTimeout := 900000;
     downloadDir := cwd |}.

(** A node-fetch [Response]: [json] is what [response.json()] settles
    with, [body] the body stream ([None] for a null body). *)
Record Response : Type := {
  status : Z;
  statusText : string;
  json : completion value;
  body : option (list Byte.byte)
}.

(** node-fetch's getter: [status >= 200 && status < 300]. *)
Definition ok (r : Response) : bool :=
  (200 <=? status r) && (status r <? 300).

(** The token [jwt.sign(payload, secret, options)] returns, kept as what
    was signed. *)
Inductive token : Type :=
| JWT (iss : string) (secret : string) (algorithm : string) (expiresIn : Z).

Inductive header_value : Type :=
| HText (s : string)
| HJwt (t : token).        (* [`JWT ${authToken}`] *)

Inductive form_value : Type :=
| FText (s : string)
| FFile (path : string).   (* [fileFromSync(path)] *)

Inductive request_body : Type :=
| FormBody (fields : list (string * form_value))
| StringBody (stringified : value).
    (* [JSON.stringify(v)], kept as its argument [v]; [posted v] is what
       the text carries *)

Record Request : Type := {
  url : string;
  method : string;
  req_body : option request_body;
  headers : list (string * header_value)
}.

(** What the client does to the outside, in the order it does it. *)
Inductive effect : Type :=
| Logged (args : list value)     (* [this.logger.log(...args)] *)
| Fetched (rq : Request)         (* node-fetch's [fetch(url, options)] *)
| ReadJson (r : Response).       (* [response.json()] *)

Record World : Type := {
  trace : list effect;
  files : gmap string (list Byte.byte)
}.

Definition emit (e : effect) (w : World) : World :=
  {| trace := trace w ++ [e]; files := files w |}.

(** [this.fetch(url, method, body)] up to the call of node-fetch: sign a
    token, log the URL, choose the headers by the type of [body]. This is
    [this.fetch] for a client that can sign, see [can_sign]. *)
Definition fetch_request (c : Client) (u : string) (m : string)
    (b : option request_body) : Request :=
  let authToken := JWT (apiKey c) (apiSecret c) "HS256" (apiJwtExpiresIn c) in
  let hs :=
    match b with
    | Some (StringBody _) =>
        [("Authorization", HJwt authToken);
         ("Accept", HText "application/json");
         ("Content-Type", HText "application/json")]
    | _ =>
        [("Authorization", HJwt authToken);
         ("Accept", HText "application/json")]
    end in
  {| url := u; method := m; req_body := b; headers := hs |}.

Definition fetch (c : Client) (u : string) (m : string)
    (b : option request_body) (w : World) : World :=
  emit (Fetched (fetch_request c u m b))
       (emit (Logged [VStr ("Fetching URL: " +:+ u)]) w).

(** The requests of a trace, oldest first. *)
Definition requests (t : list effect) : list Request :=
  omap (fun e => match e with Fetched rq => Some rq | _ => None end) t.

(** A promise: pending, or settled once and for all. *)
Inductive promise (A : Type) : Type :=
| Pending
| Resolved (a : A)
| Rejected (e : error).
Arguments Pending {A}.
Arguments Resolved {A} a.
Arguments Rejected {A} e.

(** [resolve] and [reject] act on a pending promise only. *)
Definition settle {A} (p new : promise A) : promise A :=
  match p with
  | Pending => new
  | _ => p
  end.

Definition settled {A} (p : promise A) : bool :=
  match p with
  | Pending => false
  | _ => true
  end.

(** ** The pollers *)

(** A poller is followed from one turn of the event loop to the next: a
    turn delivers the settlement of the promise the activation awaits, or
    the expiry of a timer that is armed. Timers are Node's own ([setTimeout]
    and [clearTimeout], the defaults of the [_setAbortTimeout],
    [_setValidationCheckTimeout] and [_clearTimeout] arguments); the delay
    is recorded, and the loop may deliver an armed timer at any turn. *)

(** The two callbacks a poller hands to [setTimeout]. *)
Inductive timer_kind : Type :=
| AbortTimer      (* the closure that clears the check timer and rejects *)
| CheckTimer.     (* [pollValidationStatus] / [pollApprovalStatus] *)

Record timer : Type := {
  timer_id : nat;
  kind : timer_kind;
  delay : Z
}.

(** Where the one activation of the async poll function stands. *)
Inductive phase : Type :=
| Idle                        (* no activation is running *)
| AwaitFetch                  (* at [await this.fetch(...)] *)
| AwaitJson (r : Response).   (* at [await detailResponse.json()] *)

(** One call of [waitForValidation] or [waitForApproval]: the promise it
    returned, the timers it has armed, and the variables of its closure. *)
Record Poller : Type := {
  world : World;
  result : promise value;
  timers : list timer;
  next_timer : nat;
  abortTimeout : option nat;    (* [const abortTimeout] *)
  checkTimeout : option nat;    (* [let validationCheckTimeout] / [approvalCheckTimeout] *)
  detailUrl : string;
  activation : phase
}.

Definition set_world (w : World) (s : Poller) : Poller :=
  {| world := w; result := result s; timers := timers s;
     next_timer := next_timer s; abortTimeout := abortTimeout s;
     checkTimeout := checkTimeout s; detailUrl := detailUrl s;
     activation := activation s |}.

Definition set_result (p : promise value) (s : Poller) : Poller :=
  {| world := world s; result := p; timers := timers s;
     next_timer := next_timer s; abortTimeout := abortTimeout s;
     checkTimeout := checkTimeout s; detailUrl := detailUrl s;
     activation := activation s |}.

Definition set_timers (ts : list timer) (n : nat) (s : Poller) : Poller :=
  {| world := world s; result := result s; timers := ts;
     next_timer := n; abortTimeout := abortTimeout s;
     checkTimeout := checkTimeout s; detailUrl := detailUrl s;
     activation := activation s |}.

Definition set_abortTimeout (id : nat) (s : Poller) : Poller :=
  {| world := world s; result := result s; timers := timers s;
     next_timer := next_timer s; abortTimeout := Some id;
     checkTimeout := checkTimeout s; detailUrl := detailUrl s;
     activation := activation s |}.

Definition set_checkTimeout (id : nat) (s : Poller) : Poller :=
  {| world := world s; result := result s; timers := timers s;
     next_timer := next_timer s; abortTimeout := abortTimeout s;
     checkTimeout := Some id; detailUrl := detailUrl s;
     activation := activation s |}.

Definition set_activation (a : phase) (s : Poller) : Poller :=
  {| world := world s; result := result s; timers := timers s;
     next_timer := next_timer s; abortTimeout := abortTimeout s;
     checkTimeout := checkTimeout s; detailUrl := detailUrl s;
     activation := a |}.

(** The state in which the executor of [new Promise] starts. *)
Definition new_Poller (w : World) (u : string) : Poller :=
  {| world := w; result := Pending; timers := []; next_timer := 0%nat;
     abortTimeout := None; checkTimeout := None; detailUrl := u;
     activation := Idle |}.

Definition resolve (v : value) (s : Poller) : Poller :=
  set_result (settle (result s) (Resolved v)) s.

Definition reject (e : error) (s : Poller) : Poller :=
  set_result (settle (result s) (Rejected e)) s.

Definition log (args : list value) (s : Poller) : Poller :=
  set_world (emit (Logged args) (world s)) s.

(** [setTimeout(callback, delay)]: arm a timer, return its id. *)
Definition setTimeout (k : timer_kind) (d : Z) (s : Poller) : nat * Poller :=
  let id := next_timer s in
  (id, set_timers (timers s ++ [{| timer_id := id; kind := k; delay := d |}]) (S id) s).

(** [clearTimeout(id)]: disarm; nothing happens for [undefined] or for a
    timer that has fired or was cleared. *)
Definition clearTimeout (id : option nat) (s : Poller) : Poller :=
  match id with
  | None => s
  | Some i =>
      set_timers (filter (fun t => timer_id t <> i) (timers s)) (next_timer s) s
  end.

Definition find_timer (id : nat) (s : Poller) : option timer :=
  List.find (fun t => Nat.eqb (timer_id t) id) (timers s).

Definition armed (id : nat) (s : Poller) : bool :=
  match find_timer id s with
  | Some _ => true
  | None => false
  end.

(** Is the abort timer of this poller still armed? *)
Definition abort_armed (s : Poller) : bool :=
  match abortTimeout s with
  | Some id => armed id s
  | None => false
  end.

(** What the event loop can deliver to a poller. *)
Inductive event : Type :=
| FetchSettled (r : completion Response)  (* the promise of [this.fetch] settles *)
| JsonSettled                             (* the promise of [json()] settles *)
| TimerFired (id : nat).                  (* an armed timer expires *)

Definition enabled (s : Poller) (ev : event) : bool :=
  match ev, activation s with
  | FetchSettled _, AwaitFetch => true
  | JsonSettled, AwaitJson _ => true
  | TimerFired id, _ => armed id s
  | _, _ => false
  end.

(** The [catch (err)] block, the same in both pollers. *)
Definition poll_catch (err : error) (s : Poller) : Poller :=
  reject err (clearTimeout (abortTimeout s) (set_activation Idle s)).

(** Read [v.k] inside the [try]; a throw goes to the [catch]. *)
Definition try_Get (v : value) (k : string) (s : Poller)
    (cont : value -> Poller) : Poller :=
  match Get v k with
  | Normal x => cont x
  | Throw e => poll_catch e s
  end.

(** The start of a poll, up to [await this.fetch(detailUrl)]. *)
Definition poll_start (c : Client) (s : Poller) : Poller :=
  set_activation AwaitFetch
    (set_world (fetch c (detailUrl s) "GET" None (world s)) s).

(** [response.json()] is called, the activation waits for it. *)
Definition poll_read_json (r : Response) (s : Poller) : Poller :=
  set_activation (AwaitJson r) (set_world (emit (ReadJson r) (world s)) s).

(** The abort closure: [_clearTimeout(checkTimeout); reject(new Error(msg))]. *)
Definition abort_callback (msg : string) (s : Poller) : Poller :=
  reject (Error msg) (clearTimeout (checkTimeout s) s).

(** A timer that fires is disarmed first. *)
Definition expire (id : nat) (s : Poller) : Poller :=
  set_timers (filter (fun t => timer_id t <> id) (timers s)) (next_timer s) s.

(** *** waitForValidation *)

(** [pollValidationStatus] after [await this.fetch(uploadDetailUrl)].
    The [if (!detailResponse.ok)] block rejects and falls through to the
    read of the body. *)
Definition pollValidationStatus_fetched (r : completion Response) (s : Poller)
  : Poller :=
  match r with
  | Throw err => poll_catch err s
  | Normal detailResponse =>
      let s1 :=
        if ok detailResponse then s
        else reject (Error ("Getting upload details failed: "
                            +:+ statusText detailResponse +:+ ".")) s in
      poll_read_json detailResponse s1
  end.

(** [pollValidationStatus] after [await detailResponse.json()]. *)
Definition pollValidationStatus_parsed (c : Client) (detailResponse : Response)
    (s : Poller) : Poller :=
  match json detailResponse with
  | Throw err => poll_catch err s
  | Normal detailResponseData =>
      try_Get detailResponseData "processed" s (fun processed =>
        if truthy processed then
          try_Get detailResponseData "validation" s (fun validation =>
            let s1 := log [VStr "Validation results:"; validation] s in
            try_Get detailResponseData "valid" s1 (fun valid =>
              if truthy valid then
                try_Get detailResponseData "uuid" s1 (fun uuid =>
                  set_activation Idle (resolve uuid s1))
              else
                let s2 := log [VStr "Validation failed."] s1 in
                let s3 := clearTimeout (abortTimeout s2) s2 in
                try_Get detailResponseData "url" s3 (fun u =>
                  set_activation Idle (reject (new_Error u) s3))))
        else
          (* Validation is still in progress, so wait for a while and try again. *)
          let '(id, s1) := setTimeout CheckTimer (validationCheckInterval c) s in
          set_activation Idle (set_checkTimeout id s1))
  end.

(** One turn of the event loop for a validation poller; an event that is
    not enabled cannot happen and leaves the state as it is. *)
Definition validation_step (c : Client) (s : Poller) (ev : event) : Poller :=
  if enabled s ev then
    match ev with
    | FetchSettled r => pollValidationStatus_fetched r s
    | JsonSettled =>
        match activation s with
        | AwaitJson r => pollValidationStatus_parsed c r s
        | _ => s
        end
    | TimerFired id =>
        match find_timer id s with
        | Some t =>
            match kind t with
            | AbortTimer => abort_callback "Validation Timeout." (expire id s)
            | CheckTimer => poll_start c (expire id s)
            end
        | None => s
        end
    end
  else s.

(** The executor of the promise [waitForValidation] returns, up to the
    first [await]. An exception in the executor rejects the promise. *)
Definition waitForValidation (c : Client) (data : value) (w : World) : Poller :=
  let s0 := new_Poller w "" in
  match Get data "uuid" with
  | Throw err => reject err s0
  | Normal uuid =>
      if negb (truthy uuid) then reject (new_Error data) s0
      else
        let uploadDetailUrl :=
          apiUrlPrefix c +:+ "addons/upload/" +:+ ToString uuid +:+ "/" in
        let s1 := new_Poller w uploadDetailUrl in
        let '(id, s2) := setTimeout AbortTimer (validationCheckTimeout c) s1 in
        poll_start c (set_abortTimeout id s2)
  end.

(** *** waitForApproval *)

(** [pollApprovalStatus] after [await this.fetch(detailUrl)]: here the
    non-ok branch returns. *)
Definition pollApprovalStatus_fetched (r : completion Response) (s : Poller)
  : Poller :=
  match r with
  | Throw err => poll_catch err s
  | Normal detailResponse =>
      if ok detailResponse then poll_read_json detailResponse s
      else set_activation Idle (reject (Error "Getting addon details failed.") s)
  end.

(** [pollApprovalStatus] after [await detailResponse.json()]. *)
Definition pollApprovalStatus_parsed (c : Client)
    (extractFileFromData : value -> completion value)
    (detailResponse : Response) (s : Poller) : Poller :=
  match json detailResponse with
  | Throw err => poll_catch err s
  | Normal detailResponseData =>
      match extractFileFromData detailResponseData with
      | Throw err => poll_catch err s
      | Normal file =>
          try_Get file "status" s (fun st =>
            match st with
            | VStr "public" =>
                try_Get file "url" s (fun u =>
                  set_activation Idle (resolve u s))
            | _ =>
                (* The add-on hasn't been approved yet, so wait for a while and try again. *)
                let '(id, s1) := setTimeout CheckTimer (approvalCheckInterval c) s in
                set_activation Idle (set_checkTimeout id s1)
            end)
      end
  end.

Definition approval_step (c : Client)
    (extractFileFromData : value -> completion value)
    (s : Poller) (ev : event) : Poller :=
  if enabled s ev then
    match ev with
    | FetchSettled r => pollApprovalStatus_fetched r s
    | JsonSettled =>
        match activation s with
        | AwaitJson r => pollApprovalStatus_parsed c extractFileFromData r s
        | _ => s
        end
    | TimerFired id =>
        match find_timer id s with
        | Some t =>
            match kind t with
            | AbortTimer => abort_callback "Approval Timeout." (expire id s)
            | CheckTimer => poll_start c (expire id s)
            end
        | None => s
        end
    end
  else s.

Definition waitForApproval (c : Client) (u : string) (w : World) : Poller :=
  let s0 := new_Poller w u in
  let '(id, s1) := setTimeout AbortTimer (approvalCheckTimeout c) s0 in
  poll_start c (set_abortTimeout id s1).

(** Feed a poller the events of a run, oldest first. *)
Definition run (step : Poller -> event -> Poller) (s : Poller)
    (evs : list event) : Poller :=
  fold_left step evs s.

(** The chain goes on as soon as the promise settles: the poller as it
    stands then. *)
Fixpoint await_poller (step : Poller -> event -> Poller) (s : Poller)
    (evs : list event) : Poller :=
  if settled (result s) then s
  else match evs with
       | [] => s
       | ev :: rest => await_poller step (step s ev) rest
       end.

(** ** Promise chains *)

(** A promise-returning call: what it does to the world and how the
    promise it returns ends up. *)
Definition Chain (A : Type) : Type := World -> promise A * World.

(** [p.then(f)]: [f] runs only if [p] is fulfilled; a rejection passes
    through, and nothing follows a promise that stays pending. *)
Definition then_ {A B} (p : Chain A) (f : A -> Chain B) : Chain B :=
  fun w =>
    match p w with
    | (Resolved a, w') => f a w'
    | (Rejected e, w') => (Rejected e, w')
    | (Pending, w') => (Pending, w')
    end.

(** [this.fetch(url, method, body)] as the promise node-fetch returns;
    [reply] is how the network settles it. *)
Definition fetch_promise (c : Client) (u m : string)
    (b : option request_body) (reply : promise Response) : Chain Response :=
  fun w => (reply, fetch c u m b w).

(** [fileFromSync] stats the file and throws when it is missing; the
    exception leaves [submitAddon] before any request is made, and reaches
    the caller's [await] as a rejection does. *)
Definition doUploadSubmit (c : Client) (xpi channel : string)
    (reply : promise Response) : Chain Response :=
  fun w =>
    let u := apiUrlPrefix c +:+ "addons/upload/" in
    match files w !! xpi with
    | None => (Rejected (SystemError "ENOENT"), w)
    | Some _ =>
        let formData := FormBody [("channel", FText channel); ("upload", FFile xpi)] in
        fetch_promise c u "POST" (Some formData) reply w
    end.

Definition doNewAddonSubmit (c : Client) (metaDataJSON : value) (uuid : value)
    (reply : promise Response) : Chain Response :=
  let u := apiUrlPrefix c +:+ "addons/addon/" in
  let jsonData := VObj (spread [("version", VObj [("upload", uuid)])] metaDataJSON) in
  fetch_promise c u "POST" (Some (StringBody jsonData)) reply.

Definition doNewVersionSubmit (c : Client) (addonId : string)
    (metaDataJSON : value) (uuid : value) (reply : promise Response)
  : Chain Response :=
  let u := apiUrlPrefix c +:+ "addons/addon/" +:+ addonId +:+ "/versions/" in
  let jsonData := VObj (spread [("upload", uuid)] metaDataJSON) in
  fetch_promise c u "POST" (Some (StringBody jsonData)) reply.

(** [getJson]: the executor is an async function, so a [json()] that
    rejects rejects the executor's own promise and leaves the returned one
    pending. *)
Definition getJson (response : Response) : Chain value :=
  fun w =>
    if (status response <? 100) || (500 <=? status response) then
      (Rejected (Error ("Getting response failed: " +:+ statusText response +:+ ".")), w)
    else
      let w1 := emit (ReadJson response) w in
      match json response with
      | Throw _ => (Pending, w1)
      | Normal data =>
          if negb (ok response) then
            (Rejected (Error "Bad Request"), emit (Logged [data]) w1)
          else (Resolved data, w1)
      end.

(** How [pipeline(response.body, createWriteStream(dest))] ends. *)
Inductive io_result : Type :=
| IoOk
| IoOpenError (code : string)                   (* the file could not be opened *)
| IoWriteError (written : nat) (code : string). (* a stream failed after [written] bytes *)

(** [createWriteStream] opens with flag [w]: the file is created or
    truncated, then receives the body. *)
Definition saveFile (c : Client) (response : Response) (io : io_result)
  : Chain value :=
  fun w =>
    match ok response, body response with
    | true, Some bytes =>
        let dest := downloadDir c +:+ "/the.xpi" in
        match io with
        | IoOk =>
            (Resolved VUndefined,
             {| trace := trace w; files := <[dest := bytes]> (files w) |})
        | IoOpenError code => (Rejected (SystemError code), w)
        | IoWriteError n code =>
            (Rejected (SystemError code),
             {| trace := trace w; files := <[dest := take n bytes]> (files w) |})
        end
    | _, _ =>
        (Rejected (Error ("Download of signed xpi failed: "
                          +:+ statusText response +:+ ".")), w)
    end.

(** The promise of [waitForValidation], once the event loop has
    delivered [evs]. *)
Definition waitForValidation_promise (c : Client) (evs : list event)
    (data : value) : Chain value :=
  fun w =>
    let s := await_poller (validation_step c) (waitForValidation c data w) evs in
    (result s, world s).

Definition waitForApproval_promise (c : Client)
    (extractFileFromData : value -> completion value) (evs : list event)
    (u : string) : Chain value :=
  fun w =>
    let s := await_poller (approval_step c extractFileFromData)
                          (waitForApproval c u w) evs in
    (result s, world s).

(** The two [extractFileFromData] closures. *)
Definition submitAddon_extractFileFromData (channel : string) (data : value)
  : completion value :=
  if String.eqb channel "listed" then
    current_version ← Get data "current_version"; Get current_version "file"
  else
    latest_unlisted_version ← Get data "latest_unlisted_version";
    Get latest_unlisted_version "file".

Definition submitVersion_extractFileFromData (data : value) : completion value :=
  Get data "file".

(** A promise whose executor evaluates [e] and resolves with it. *)
Definition promise_of {A} (e : completion A) : Chain A :=
  fun w =>
    match e with
    | Normal a => (Resolved a, w)
    | Throw err => (Rejected err, w)
    end.

(** The two [getDetailUrl] closures. *)
Definition submitAddon_getDetailUrl (c : Client) (data : value) : Chain string :=
  promise_of (slug ← Get data "slug";
              mret (apiUrlPrefix c +:+ "addons/addon/" +:+ ToString slug +:+ "/")).

Definition submitVersion_getDetailUrl (c : Client) (addonId : string)
    (data : value) : Chain string :=
  promise_of (id ← Get data "id";
              mret (apiUrlPrefix c +:+ "addons/addon/" +:+ addonId
                    +:+ "/versions/" +:+ ToString id +:+ "/")).

(** What the outside answers during one run of a workflow. *)
Record Network : Type := {
  upload_reply : promise Response;
  validation_events : list event;
  submit_reply : promise Response;
  approval_events : list event;
  download_reply : promise Response;
  disk : io_result
}.

Definition submitAddon (c : Client) (xpi channel : string)
    (metaDataJSON : value) (net : Network) : Chain value :=
  then_ (then_ (then_ (then_ (then_ (then_ (then_ (then_
    (doUploadSubmit c xpi channel (upload_reply net))
    getJson)
    (waitForValidation_promise c (validation_events net)))
    (fun uuid => doNewAddonSubmit c metaDataJSON uuid (submit_reply net)))
    getJson)
    (submitAddon_getDetailUrl c))
    (waitForApproval_promise c (submitAddon_extractFileFromData channel)
                             (approval_events net)))
    (fun u => fetch_promise c (ToString u) "GET" None (download_reply net)))
    (fun r => saveFile c r (disk net)).

Definition submitVersion (c : Client) (xpi channel addonId : string)
    (metaDataJSON : value) (net : Network) : Chain value :=
  then_ (then_ (then_ (then_ (then_ (then_ (then_ (then_
    (doUploadSubmit c xpi channel (upload_reply net))
    getJson)
    (waitForValidation_promise c (validation_events net)))
    (fun uuid => doNewVersionSubmit c addonId metaDataJSON uuid (submit_reply net)))
    getJson)
    (submitVersion_getDetailUrl c addonId))
    (waitForApproval_promise c submitVersion_extractFileFromData
                             (approval_events net)))
    (fun u => fetch_promise c (ToString u) "GET" None (download_reply net)))
    (fun r => saveFile c r (disk net)).

(** ** The workflows as the specification words them *)

(** How a stage can fail to hand a value on. *)
Inductive halt : Type :=
| Hangs                (* its promise is never settled *)
| Fails (e : error).   (* its promise is rejected *)

Definition halt_promise {A} (h : halt) : promise A :=
  match h with
  | Hangs => Pending
  | Fails e => Rejected e
  end.

Section Workflow.
Context (c : Client) (xpi channel : string) (net : Network).
(** What differs between the two workflows: the metadata submit, the
    detail URL and the file extractor. *)
Context (submit : value -> promise Response -> Chain Response)
        (getDetailUrl : value -> Chain string)
        (extractFileFromData : value -> completion value).

(** upload -> interpretJson -> waitForValidation -> submit ->
    interpretJson -> detail URL -> waitForApproval -> download -> save:
    each stage starts in the world the one before left, on the value it
    produced; a stage that halts ends the run there. *)
Inductive workflow (w0 : World) : promise value * World -> Prop :=
| halt_upload h w1 :
    doUploadSubmit c xpi channel (upload_reply net) w0 = (halt_promise h, w1) ->
    workflow w0 (halt_promise h, w1)
| halt_upload_json h r1 w1 w2 :
    doUploadSubmit c xpi channel (upload_reply net) w0 = (Resolved r1, w1) ->
    getJson r1 w1 = (halt_promise h, w2) ->
    workflow w0 (halt_promise h, w2)
| halt_validation h r1 w1 d1 w2 w3 :
    doUploadSubmit c xpi channel (upload_reply net) w0 = (Resolved r1, w1) ->
    getJson r1 w1 = (Resolved d1, w2) ->
    waitForValidation_promise c (validation_events net) d1 w2 = (halt_promise h, w3) ->
    workflow w0 (halt_promise h, w3)
| halt_submit h r1 w1 d1 w2 uploadId w3 w4 :
    doUploadSubmit c xpi channel (upload_reply net) w0 = (Resolved r1, w1) ->
    getJson r1 w1 = (Resolved d1, w2) ->
    waitForValidation_promise c (validation_events net) d1 w2 = (Resolved uploadId, w3) ->
    submit uploadId (submit_reply net) w3 = (halt_promise h, w4) ->
    workflow w0 (halt_promise h, w4)
| halt_submit_json h r1 w1 d1 w2 uploadId w3 r2 w4 w5 :
    doUploadSubmit c xpi channel (upload_reply net) w0 = (Resolved r1, w1) ->
    getJson r1 w1 = (Resolved d1, w2) ->
    waitForValidation_promise c (validation_events net) d1 w2 = (Resolved uploadId, w3) ->
    submit uploadId (submit_reply net) w3 = (Resolved r2, w4) ->
    getJson r2 w4 = (halt_promise h, w5) ->
    workflow w0 (halt_promise h, w5)
| halt_detail_url h r1 w1 d1 w2 uploadId w3 r2 w4 d2 w5 w6 :
    doUploadSubmit c xpi channel (upload_reply net) w0 = (Resolved r1, w1) ->
    getJson r1 w1 = (Resolved d1, w2) ->
    waitForValidation_promise c (validation_events net) d1 w2 = (Resolved uploadId, w3) ->
    submit uploadId (submit_reply net) w3 = (Resolved r2, w4) ->
    getJson r2 w4 = (Resolved d2, w5) ->
    getDetailUrl d2 w5 = (halt_promise h, w6) ->
    workflow w0 (halt_promise h, w6)
| halt_approval h r1 w1 d1 w2 uploadId w3 r2 w4 d2 w5 u w6 w7 :
    doUploadSubmit c xpi channel (upload_reply net) w0 = (Resolved r1, w1) ->
    getJson r1 w1 = (Resolved d1, w2) ->
    waitForValidation_promise c (validation_events net) d1 w2 = (Resolved uploadId, w3) ->
    submit uploadId (submit_reply net) w3 = (Resolved r2, w4) ->
    getJson r2 w4 = (Resolved d2, w5) ->
    getDetailUrl d2 w5 = (Resolved u, w6) ->
    waitForApproval_promise c extractFileFromData (approval_events net) u w6
      = (halt_promise h, w7) ->
    workflow w0 (halt_promise h, w7)
| halt_download h r1 w1 d1 w2 uploadId w3 r2 w4 d2 w5 u w6 fileUrl w7 w8 :
    doUploadSubmit c xpi channel (upload_reply net) w0 = (Resolved r1, w1) ->
    getJson r1 w1 = (Resolved d1, w2) ->
    waitForValidation_promise c (validation_events net) d1 w2 = (Resolved uploadId, w3) ->
    submit uploadId (submit_reply net) w3 = (Resolved r2, w4) ->
    getJson r2 w4 = (Resolved d2, w5) ->
    getDetailUrl d2 w5 = (Resolved u, w6) ->
    waitForApproval_promise c extractFileFromData (approval_events net) u w6
      = (Resolved fileUrl, w7) ->
    fetch_promise c (ToString fileUrl) "GET" None (download_reply net) w7
      = (halt_promise h, w8) ->
    workflow w0 (halt_promise h, w8)
| saved r1 w1 d1 w2 uploadId w3 r2 w4 d2 w5 u w6 fileUrl w7 r3 w8 out :
    doUploadSubmit c xpi channel (upload_reply net) w0 = (Resolved r1, w1) ->
    getJson r1 w1 = (Resolved d1, w2) ->
    waitForValidation_promise c (validation_events net) d1 w2 = (Resolved uploadId, w3) ->
    submit uploadId (submit_reply net) w3 = (Resolved r2, w4) ->
    getJson r2 w4 = (Resolved d2, w5) ->
    getDetailUrl d2 w5 = (Resolved u, w6) ->
    waitForApproval_promise c extractFileFromData (approval_events net) u w6
      = (Resolved fileUrl, w7) ->
    fetch_promise c (ToString fileUrl) "GET" None (download_reply net) w7
      = (Resolved r3, w8) ->
    saveFile c r3 (disk net) w8 = out ->
    workflow w0 out.
End Workflow.

(** ** An invariant of the pollers *)

(** Every armed timer is the one its variable holds, and a check timer
    is armed only between two activations. *)
Definition timer_tracked (s : Poller) (t : timer) : Prop :=
  match kind t with
  | AbortTimer => abortTimeout s = Some (timer_id t)
  | CheckTimer => checkTimeout s = Some (timer_id t) /\ activation s = Idle
  end.

Definition timers_tracked (s : Poller) : Prop :=
  forall t, t ∈ timers s -> timer_tracked s t.

(** ** More about the pollers *)

#[global] Instance timer_kind_eq_dec : EqDecision timer_kind.
Proof. solve_decision. Defined.

(** Timer ids are handed out in increasing order and never reused. *)
Definition timers_fresh (s : Poller) : Prop :=
  NoDup (timer_id <$> timers s)
  /\ Forall (fun t => (timer_id t < next_timer s)%nat) (timers s).

(** The armed timers of one kind. *)
Definition timers_of (k : timer_kind) (s : Poller) : list timer :=
  filter (fun t => kind t = k) (timers s).

(** At most one scheduled poll and one abort timer, and no scheduled poll
    while an activation runs. *)
Definition one_poll_at_a_time (s : Poller) : Prop :=
  (length (timers_of CheckTimer s) <= 1)%nat
  /\ (length (timers_of AbortTimer s) <= 1)%nat
  /\ (activation s <> Idle -> timers_of CheckTimer s = []).

(** The poller [s'] has stopped: its promise is settled, no timer is
    armed and no activation runs. *)
Definition polling_over (s' : Poller) : Prop :=
  settled (result s') = true /\ timers s' = [] /\ activation s' = Idle.

(** The events of polls that each end with the next poll scheduled: the
    response, its body, then the check timer, whose ids follow [next]. *)
Fixpoint rescheduled_polls (next : nat) (rs : list Response) : list event :=
  match rs with
  | [] => []
  | r :: rest =>
      FetchSettled (Normal r) :: JsonSettled :: TimerFired next
        :: rescheduled_polls (S next) rest
  end.

(** An ok detail response of an upload not yet processed. *)
Definition still_in_progress (r : Response) : Prop :=
  ok r = true
  /\ exists v processed,
       json r = Normal v /\ Get v "processed" = Normal processed
       /\ truthy processed = false.

(** An ok detail response whose file has another status than "public". *)
Definition not_yet_public (ex : value -> completion value) (r : Response) : Prop :=
  ok r = true
  /\ exists v file st,
       json r = Normal v /\ ex v = Normal file /\ Get file "status" = Normal st
       /\ st <> VStr "public".

(** ** Requests *)

(** [jwt.sign] throws on an empty secret, before [this.fetch] logs or
    sends anything; with a secret it signs. *)
Definition can_sign (c : Client) : Prop := apiSecret c <> "".

(** What [JSON.parse] reads back from [JSON.stringify(v)], the text
    [StringBody v] stands for: a property whose value is [undefined] is
    left out, an [undefined] array element is written [null]. *)
Fixpoint posted (v : value) : value :=
  match v with
  | VObj props =>
      let fix go (l : list (string * value)) : list (string * value) :=
        match l with
        | [] => []
        | (k, x) :: rest =>
            match x with
            | VUndefined => go rest
            | _ => (k, posted x) :: go rest
            end
        end in
      VObj (go props)
  | VArr items =>
      VArr (map (fun x => match x with
                          | VUndefined => VNull
                          | _ => posted x
                          end) items)
  | _ => v
  end.

(** The properties of the posted object. *)
Definition posted_props (props : list (string * value)) : list (string * value) :=
  match posted (VObj props) with
  | VObj l => l
  | _ => []
  end.

(** What the posted object binds a key to, given what the stringified
    one binds it to. *)
Definition posted_binding (v : value) : option value :=
  match v with
  | VUndefined => None
  | _ => Some (posted v)
  end.

(** A request as [this.fetch] builds it for this client: signed with its
    key, with the headers that go with the body. *)
Definition made_by (c : Client) (rq : Request) : Prop :=
  rq = fetch_request c (url rq) (method rq) (req_body rq).

(** Between [w] and [w'] only requests of the client were added. *)
Definition only_client_requests (c : Client) (w w' : World) : Prop :=
  exists new,
    requests (trace w') = requests (trace w) ++ new /\ Forall (made_by c) new.

(** ** Sample data *)

Definition amo : Client :=
  new_Client "user:1:23" "secret" "https://addons.mozilla.org/api/v5/" "/home/dev".

Definition fresh_world : World := {| trace := []; files := ∅ |}.

(** A response with a JSON body and no stream. *)
Definition json_response (st : Z) (text : string) (v : value) : Response :=
  {| status := st; statusText := text; json := Normal v; body := None |}.

Definition upload_abc : value := VObj [("uuid", VStr "abc")].

Definition still_processing : value := VObj [("processed", VBool false)].

Definition processed_valid : value :=
  VObj [("uuid", VStr "abc"); ("processed", VBool true); ("valid", VBool true);
        ("validation", VObj [])].

Definition processed_invalid : value :=
  VObj [("uuid", VStr "abc"); ("processed", VBool true); ("valid", VBool false);
        ("validation", VObj [("errors", VNum 1)]);
        ("url", VStr "https://addons.mozilla.org/upload/abc")].

Definition not_found : Response :=
  json_response 404 "Not Found" (VObj [("detail", VStr "Not found.")]).

Definition public_file : value :=
  VObj [("status", VStr "public"); ("url", VStr "https://addons.mozilla.org/the.xpi")].

Definition listed_addon : value :=
  VObj [("slug", VStr "my-addon");
        ("current_version", VObj [("id", VNum 7); ("file", public_file)])].

Definition unlisted_addon : value :=
  VObj [("slug", VStr "my-addon");
        ("latest_unlisted_version",
         VObj [("id", VNum 8); ("file", VObj [("status", VStr "unreviewed")])])].

Definition approval_url : string :=
  "https://addons.mozilla.org/api/v5/addons/addon/my-addon/".

Definition signed_xpi : Response :=
  {| status := 200; statusText := "OK"; json := Throw SyntaxError;
     body := Some [Byte.x50; Byte.x4b; Byte.x03; Byte.x04] |}.

(** A disk that holds the package to submit. *)
Definition dev_world : World :=
  {| trace := []; files := {[ "addon.xpi" := [Byte.x50; Byte.x4b] ]} |}.

(** A run in which validation needs a second poll and approval is
    immediate. *)
Definition smooth_run : Network :=
  {| upload_reply := Resolved (json_response 201 "Created" upload_abc);
     validation_events :=
       [FetchSettled (Normal (json_response 200 "OK" still_processing));
        JsonSettled;
        TimerFired 1;
        FetchSettled (Normal (json_response 200 "OK" processed_valid));
        JsonSettled];
     submit_reply := Resolved (json_response 201 "Created" listed_addon);
     approval_events :=
       [FetchSettled (Normal (json_response 200 "OK" listed_addon)); JsonSettled];
     download_reply := Resolved signed_xpi;
     disk := IoOk |}.

(** The same run with a package that fails validation. *)
Definition invalid_run : Network :=
  {| upload_reply := upload_reply smooth_run;
     validation_events :=
       [FetchSettled (Normal (json_response 200 "OK" processed_invalid));
        JsonSettled];
     submit_reply := submit_reply smooth_run;
     approval_events := approval_events smooth_run;
     download_reply := download_reply smooth_run;
     disk := IoOk |}.

(** * Properties *)

(** ** Values *)

Example ToString_examples :
  ToString (VArr [VNum 1; VNull; VStr "a"]) = "1,,a"
  /\ ToString (VNum (-42)) = "-42"
  /\ ToString (VObj [("uuid", VStr "abc")]) = "[object Object]".
Proof. repeat split; vm_compute; reflexivity. Qed.

Example spread_overrides :
  spread [("version", VObj [("upload", VStr "abc")])]
         (VObj [("name", VStr "n"); ("version", VStr "1.0")])
  = [("version", VStr "1.0"); ("name", VStr "n")].
Proof. reflexivity. Qed.

Lemma field_truthy_Get v k :
  truthy (field v k) = true -> Get v k = Normal (field v k).
Proof.
  unfold field. destruct v; simpl; try reflexivity; discriminate.
Qed.

(** A value one property of which was read has all its properties
    readable. *)
Lemma Get_Normal_any v k x k' :
  Get v k = Normal x -> Get v k' = Normal (field v k').
Proof.
  unfold field. destruct v; simpl; try reflexivity; discriminate.
Qed.

(** ** Timers *)

Lemma find_filter_out (id : nat) (ts : list timer) :
  List.find (fun t => Nat.eqb (timer_id t) id)
            (filter (fun t => timer_id t <> id) ts) = None.
Proof.
  induction ts as [|t ts IH]; [reflexivity|].
  rewrite filter_cons. destruct (decide (timer_id t <> id)) as [Hne|Heq].
  - simpl. destruct (Nat.eqb_spec (timer_id t) id); [contradiction|exact IH].
  - exact IH.
Qed.

Lemma armed_clearTimeout id s : armed id (clearTimeout (Some id) s) = false.
Proof.
  unfold armed, find_timer, clearTimeout. simpl. now rewrite find_filter_out.
Qed.

Lemma armed_expire id s : armed id (expire id s) = false.
Proof.
  unfold armed, find_timer, expire. simpl. now rewrite find_filter_out.
Qed.

Lemma abort_armed_clearTimeout s :
  abort_armed (clearTimeout (abortTimeout s) s) = false.
Proof.
  unfold abort_armed. destruct (abortTimeout s) as [id|] eqn:E; simpl.
  - rewrite E. apply armed_clearTimeout.
  - now rewrite E.
Qed.

(** ** waitForValidation *)

(** C4: a detail record with [processed] true and [valid] false, read
    from an ok response while the promise is pending, makes
    [waitForValidation] clear its abort timer and reject with the error
    built from the record's [url]; no further poll is scheduled. *)
Theorem validation_failed_rejects_with_report_url
    (c : Client) (s : Poller) (r : Response) (v : value) :
  activation s = AwaitFetch ->
  result s = Pending ->
  ok r = true ->
  json r = Normal v ->
  truthy (field v "processed") = true ->
  truthy (field v "valid") = false ->
  let s' := run (validation_step c) s [FetchSettled (Normal r); JsonSettled] in
  result s' = Rejected (new_Error (field v "url"))
  /\ abort_armed s' = false
  /\ timers s' = timers (clearTimeout (abortTimeout s) s)
  /\ activation s' = Idle
  /\ trace (world s') =
       trace (world s) ++ [ReadJson r]
         ++ [Logged [VStr "Validation results:"; field v "validation"]]
         ++ [Logged [VStr "Validation failed."]].
Proof.
  intros Hact Hres Hok Hjson Hproc Hvalid.
  pose proof (field_truthy_Get _ _ Hproc) as Hp.
  destruct s as [w p ts n ab ck u a]; simpl in Hact, Hres; subst a p.
  unfold run, validation_step, enabled; simpl.
  unfold pollValidationStatus_fetched; rewrite Hok; simpl.
  unfold pollValidationStatus_parsed; rewrite Hjson; unfold try_Get.
  rewrite Hp, Hproc, (Get_Normal_any _ _ _ "validation" Hp).
  rewrite (Get_Normal_any _ _ _ "valid" Hp), Hvalid.
  rewrite (Get_Normal_any _ _ _ "url" Hp).
  destruct ab as [id|]; simpl.
  - repeat split; try reflexivity.
    + unfold abort_armed, armed, find_timer; simpl. now rewrite find_filter_out.
    + now rewrite <- !app_assoc.
  - repeat split; try reflexivity. now rewrite <- !app_assoc.
Qed.

Lemma validation_failed_witness :
  let s := waitForValidation amo upload_abc fresh_world in
  let r := json_response 200 "OK" processed_invalid in
  (activation s = AwaitFetch /\ result s = Pending /\ ok r = true)
  /\ (let s' := run (validation_step amo) s [FetchSettled (Normal r); JsonSettled] in
      result s' = Rejected (Error "https://addons.mozilla.org/upload/abc")
      /\ abort_armed s' = false
      /\ timers s' = []).
Proof.
  split; [repeat split|].
  destruct (validation_failed_rejects_with_report_url amo
              (waitForValidation amo upload_abc fresh_world)
              (json_response 200 "OK" processed_invalid) processed_invalid)
    as (H1 & H2 & H3 & _); try reflexivity.
  split; [exact H1 | split; [exact H2 | exact H3]].
Defined.

(** No event is enabled in a poller that has no timer and no activation. *)
Lemma quiescent_validation c s evs :
  timers s = [] -> activation s = Idle -> run (validation_step c) s evs = s.
Proof.
  intros Ht Ha. induction evs as [|ev evs IH]; [reflexivity|].
  simpl. replace (validation_step c s ev) with s; [exact IH|].
  unfold validation_step, enabled, armed, find_timer. rewrite Ht, Ha.
  destruct ev; reflexivity.
Qed.

Lemma quiescent_approval c ex s evs :
  timers s = [] -> activation s = Idle -> run (approval_step c ex) s evs = s.
Proof.
  intros Ht Ha. induction evs as [|ev evs IH]; [reflexivity|].
  simpl. replace (approval_step c ex s ev) with s; [exact IH|].
  unfold approval_step, enabled, armed, find_timer. rewrite Ht, Ha.
  destruct ev; reflexivity.
Qed.





(** The shapes of body the precondition speaks of. *)
Lemma uuid_absent_or_empty props :
  obj_lookup "uuid" props = None \/ obj_lookup "uuid" props = Some (VStr "")
  \/ obj_lookup "uuid" props = Some VNull ->
  exists uuid, Get (VObj props) "uuid" = Normal uuid /\ truthy uuid = false.
Proof.
  intros [H|[H|H]]; simpl; rewrite H; simpl; eauto.
Qed.

(** A body of [null] has no [uuid] to read: the executor throws, and the
    promise is rejected with that exception, again before any request or
    timer. *)
Lemma null_body_rejects_without_polling c w evs :
  waitForValidation_promise c evs VNull w = (Rejected (TypeError VNull "uuid"), w)
  /\ timers (waitForValidation c VNull w) = [].
Proof. split; [|reflexivity]. destruct evs; reflexivity. Qed.

(** On the successful branch [pollValidationStatus] resolves and touches
    no timer. *)
Lemma validation_success_keeps_timers (c : Client) (s : Poller) (r : Response)
    (v : value) :
  activation s = AwaitJson r ->
  json r = Normal v ->
  truthy (field v "processed") = true ->
  truthy (field v "valid") = true ->
  let s' := validation_step c s JsonSettled in
  result s' = settle (result s) (Resolved (field v "uuid"))
  /\ timers s' = timers s
  /\ abort_armed s' = abort_armed s.
Proof.
  intros Hact Hjson Hproc Hvalid.
  pose proof (field_truthy_Get _ _ Hproc) as Hp.
  destruct s as [w p ts n ab ck u a]; simpl in Hact; subst a.
  unfold validation_step, enabled; simpl.
  unfold pollValidationStatus_parsed; rewrite Hjson; unfold try_Get.
  rewrite Hp, Hproc, (Get_Normal_any _ _ _ "validation" Hp).
  rewrite (Get_Normal_any _ _ _ "valid" Hp), Hvalid.
  rewrite (Get_Normal_any _ _ _ "uuid" Hp).
  repeat split.
Qed.

(** The same in [pollApprovalStatus]. *)
Lemma approval_success_keeps_timers (c : Client)
    (ex : value -> completion value) (s : Poller) (r : Response)
    (v file : value) :
  activation s = AwaitJson r ->
  json r = Normal v ->
  ex v = Normal file ->
  Get file "status" = Normal (VStr "public") ->
  let s' := approval_step c ex s JsonSettled in
  result s' = settle (result s) (Resolved (field file "url"))
  /\ timers s' = timers s
  /\ abort_armed s' = abort_armed s.
Proof.
  intros Hact Hjson Hex Hst.
  destruct s as [w p ts n ab ck u a]; simpl in Hact; subst a.
  unfold approval_step, enabled; simpl.
  unfold pollApprovalStatus_parsed; rewrite Hjson, Hex; unfold try_Get.
  rewrite Hst, (Get_Normal_any _ _ _ "url" Hst).
  repeat split.
Qed.

(** C1 (does not hold of the code): a poll that resolves the promise, in
    either poller, leaves the abort timer armed, so that it can still
    fire afterwards; only the failure branches call
    [_clearTimeout(abortTimeout)]. *)
Theorem resolution_leaves_abort_timer_armed (c : Client)
    (ex : value -> completion value) (s : Poller) (r : Response) (v : value) :
  activation s = AwaitJson r ->
  json r = Normal v ->
  abort_armed s = true ->
  (truthy (field v "processed") = true ->
   truthy (field v "valid") = true ->
   let s' := validation_step c s JsonSettled in
   result s' = settle (result s) (Resolved (field v "uuid"))
   /\ abort_armed s' = true
   /\ exists id, abortTimeout s' = Some id /\ enabled s' (TimerFired id) = true)
  /\ (forall file,
      ex v = Normal file ->
      Get file "status" = Normal (VStr "public") ->
      let s' := approval_step c ex s JsonSettled in
      result s' = settle (result s) (Resolved (field file "url"))
      /\ abort_armed s' = true
      /\ exists id, abortTimeout s' = Some id /\ enabled s' (TimerFired id) = true).
Proof.
  intros Hact Hjson Harmed.
  assert (Hfire : forall s', abort_armed s' = true ->
            exists id, abortTimeout s' = Some id /\ enabled s' (TimerFired id) = true).
  { intros s' H. unfold abort_armed in H.
    destruct (abortTimeout s') as [id|]; [|discriminate].
    exists id. split; [reflexivity|]. unfold enabled.
    destruct (activation s'); exact H. }
  split.
  - intros Hproc Hvalid.
    destruct (validation_success_keeps_timers c s r v Hact Hjson Hproc Hvalid)
      as (H1 & _ & H3).
    rewrite Harmed in H3. split; [exact H1|]. split; [exact H3|]. now apply Hfire.
  - intros file Hex Hst.
    destruct (approval_success_keeps_timers c ex s r v file Hact Hjson Hex Hst)
      as (H1 & _ & H3).
    rewrite Harmed in H3. split; [exact H1|]. split; [exact H3|]. now apply Hfire.
Qed.

Lemma resolution_witness :
  let sv := validation_step amo (waitForValidation amo upload_abc fresh_world)
              (FetchSettled (Normal (json_response 200 "OK" processed_valid))) in
  let sa := approval_step amo (submitAddon_extractFileFromData "listed")
              (waitForApproval amo approval_url fresh_world)
              (FetchSettled (Normal (json_response 200 "OK" listed_addon))) in
  (abort_armed sv = true /\ abort_armed sa = true)
  /\ (result (validation_step amo sv JsonSettled) = Resolved (VStr "abc")
      /\ abort_armed (validation_step amo sv JsonSettled) = true)
  /\ (result (approval_step amo (submitAddon_extractFileFromData "listed") sa JsonSettled)
       = Resolved (VStr "https://addons.mozilla.org/the.xpi")
      /\ abort_armed (approval_step amo (submitAddon_extractFileFromData "listed")
                                    sa JsonSettled) = true).
Proof.
  intros sv sa. split; [split; reflexivity|]. split.
  - destruct (proj1 (resolution_leaves_abort_timer_armed amo
                       (submitAddon_extractFileFromData "listed") sv
                       (json_response 200 "OK" processed_valid) processed_valid
                       eq_refl eq_refl eq_refl) eq_refl eq_refl)
      as (H1 & H2 & _).
    split; [exact H1 | exact H2].
  - destruct (proj2 (resolution_leaves_abort_timer_armed amo
                       (submitAddon_extractFileFromData "listed") sa
                       (json_response 200 "OK" listed_addon) listed_addon
                       eq_refl eq_refl eq_refl) public_file eq_refl eq_refl)
      as (H1 & H2 & _).
    split; [exact H1 | exact H2].
Defined.

(** C2 (does not hold of the code): on a detail response that is not ok
    [waitForValidation] rejects but goes on to read the body and leaves
    the abort timer as it was; when the body is a record not yet
    processed it schedules the next poll. [waitForApproval] rejects and
    stops polling, and leaves its abort timer as it was too. *)
Theorem not_ok_detail_fetch_is_not_final (c : Client)
    (ex : value -> completion value) (s : Poller) (r : Response) :
  activation s = AwaitFetch ->
  result s = Pending ->
  ok r = false ->
  (let s1 := validation_step c s (FetchSettled (Normal r)) in
   result s1 = Rejected (Error ("Getting upload details failed: "
                                +:+ statusText r +:+ "."))
   /\ timers s1 = timers s
   /\ abort_armed s1 = abort_armed s
   /\ activation s1 = AwaitJson r
   /\ forall v processed,
        json r = Normal v ->
        Get v "processed" = Normal processed ->
        truthy processed = false ->
        let s2 := validation_step c s1 JsonSettled in
        timers s2
        = timers s ++ [{| timer_id := next_timer s; kind := CheckTimer;
                          delay := validationCheckInterval c |}]
        /\ checkTimeout s2 = Some (next_timer s)
        /\ activation s2 = Idle)
  /\ (let s1 := approval_step c ex s (FetchSettled (Normal r)) in
      result s1 = Rejected (Error "Getting addon details failed.")
      /\ timers s1 = timers s
      /\ abort_armed s1 = abort_armed s
      /\ activation s1 = Idle).
Proof.
  intros Hact Hres Hok.
  destruct s as [w p ts n ab ck u a]; simpl in Hact, Hres; subst a p.
  split.
  - unfold validation_step, enabled; simpl.
    unfold pollValidationStatus_fetched; rewrite Hok; simpl.
    repeat (split; [reflexivity|]).
    intros v processed Hjson Hget Hfalsy.
    unfold pollValidationStatus_parsed; rewrite Hjson; unfold try_Get.
    rewrite Hget, Hfalsy. repeat split.
  - unfold approval_step, enabled; simpl.
    unfold pollApprovalStatus_fetched; rewrite Hok; simpl.
    repeat split.
Qed.

Lemma not_ok_witness :
  let sv := waitForValidation amo upload_abc fresh_world in
  let sa := waitForApproval amo approval_url fresh_world in
  (ok not_found = false /\ activation sv = AwaitFetch /\ activation sa = AwaitFetch)
  /\ (let s2 := run (validation_step amo) sv
                  [FetchSettled (Normal not_found); JsonSettled] in
      result s2 = Rejected (Error "Getting upload details failed: Not Found.")
      /\ timers s2
         = [{| timer_id := 0; kind := AbortTimer; delay := 300000 |};
            {| timer_id := 1; kind := CheckTimer; delay := 1000 |}])
  /\ (let s1 := approval_step amo (submitAddon_extractFileFromData "listed") sa
                  (FetchSettled (Normal not_found)) in
      result s1 = Rejected (Error "Getting addon details failed.")
      /\ abort_armed s1 = true).
Proof.
  intros sv sa. split; [repeat split|]. split.
  - destruct (proj1 (not_ok_detail_fetch_is_not_final amo
                       (submitAddon_extractFileFromData "listed") sv not_found
                       eq_refl eq_refl eq_refl))
      as (H1 & _ & _ & _ & H5).
    destruct (H5 (VObj [("detail", VStr "Not found.")]) VUndefined
                 eq_refl eq_refl eq_refl) as (H6 & _).
    split; [exact H1 | exact H6].
  - destruct (proj2 (not_ok_detail_fetch_is_not_final amo
                       (submitAddon_extractFileFromData "listed") sa not_found
                       eq_refl eq_refl eq_refl))
      as (H1 & _ & H3 & _).
    split; [exact H1 | exact H3].
Defined.

(** After the 404 the scheduled poll fires and a second request goes
    out. *)
Example not_found_is_polled_again :
  let s := run (validation_step amo) (waitForValidation amo upload_abc fresh_world)
             [FetchSettled (Normal not_found); JsonSettled; TimerFired 1] in
  result s = Rejected (Error "Getting upload details failed: Not Found.")
  /\ activation s = AwaitFetch
  /\ map url (requests (trace (world s)))
     = ["https://addons.mozilla.org/api/v5/addons/upload/abc/";
        "https://addons.mozilla.org/api/v5/addons/upload/abc/"].
Proof. repeat split; vm_compute; reflexivity. Qed.

Lemma find_fresh_timer (n : nat) (ts : list timer) (t : timer) :
  Forall (fun t' => (timer_id t' < n)%nat) ts ->
  timer_id t = n ->
  List.find (fun t' => Nat.eqb (timer_id t') n) (ts ++ [t]) = Some t.
Proof.
  intros Hlt Hid. induction Hlt as [|t' ts Ht' _ IH]; simpl.
  - now rewrite Hid, Nat.eqb_refl.
  - destruct (Nat.eqb_spec (timer_id t') n); [lia|exact IH].
Qed.

Lemma Forall_filter_timers (P : timer -> Prop) (i : nat) (ts : list timer) :
  Forall P ts -> Forall P (filter (fun t => timer_id t <> i) ts).
Proof.
  rewrite !Forall_forall. intros H t Ht.
  apply list_elem_of_filter in Ht as [_ Ht]. now apply H.
Qed.

(** The abort timer fires. *)
Lemma abort_timer_fires (c : Client) (s : Poller) (id : nat) (t : timer) :
  find_timer id s = Some t ->
  kind t = AbortTimer ->
  let s1 := validation_step c s (TimerFired id) in
  result s1 = settle (result s) (Rejected (Error "Validation Timeout."))
  /\ activation s1 = activation s
  /\ next_timer s1 = next_timer s
  /\ detailUrl s1 = detailUrl s
  /\ world s1 = world s
  /\ forall P, Forall P (timers s) -> Forall P (timers s1).
Proof.
  intros Hfind Hkind. simpl.
  assert (Hen : enabled s (TimerFired id) = true).
  { unfold enabled, armed. now rewrite Hfind. }
  unfold validation_step. rewrite Hen, Hfind, Hkind.
  unfold abort_callback, reject, expire.
  destruct (checkTimeout s) as [k|] eqn:Hck; simpl; rewrite Hck; simpl;
    repeat split; intros P HP;
    repeat apply Forall_filter_timers; exact HP.
Qed.

(** A response that is ok and not yet processed schedules the next
    poll, whatever the state of the promise. *)
Lemma unprocessed_schedules_next_poll (c : Client) (s : Poller) (r : Response)
    (v processed : value) :
  activation s = AwaitFetch ->
  Forall (fun t' => (timer_id t' < next_timer s)%nat) (timers s) ->
  ok r = true ->
  json r = Normal v ->
  Get v "processed" = Normal processed ->
  truthy processed = false ->
  let s2 := run (validation_step c) s [FetchSettled (Normal r); JsonSettled] in
  result s2 = result s
  /\ find_timer (next_timer s) s2
     = Some {| timer_id := next_timer s; kind := CheckTimer;
               delay := validationCheckInterval c |}
  /\ detailUrl s2 = detailUrl s.
Proof.
  intros Hact Hfresh Hok Hjson Hget Hfalsy.
  destruct s as [w p ts n ab ck u a]. simpl in Hact, Hfresh. subst a.
  unfold run, validation_step, enabled; simpl.
  unfold pollValidationStatus_fetched; rewrite Hok; simpl.
  unfold pollValidationStatus_parsed; rewrite Hjson; unfold try_Get.
  rewrite Hget, Hfalsy. simpl. repeat split.
  unfold find_timer. simpl. now apply find_fresh_timer.
Qed.

(** The check timer fires: a detail request goes out. *)
Lemma check_timer_polls (c : Client) (s : Poller) (id : nat) (t : timer) :
  find_timer id s = Some t ->
  kind t = CheckTimer ->
  let s3 := validation_step c s (TimerFired id) in
  result s3 = result s
  /\ activation s3 = AwaitFetch
  /\ trace (world s3)
     = trace (world s)
         ++ [Logged [VStr ("Fetching URL: " +:+ detailUrl s)]]
         ++ [Fetched (fetch_request c (detailUrl s) "GET" None)].
Proof.
  intros Hfind Hkind. simpl.
  assert (Hen : enabled s (TimerFired id) = true).
  { unfold enabled, armed. now rewrite Hfind. }
  unfold validation_step. rewrite Hen, Hfind, Hkind.
  simpl. repeat split. now rewrite <- app_assoc.
Qed.

(** C5 (does not hold of the code): when the abort timer fires while a
    detail fetch is in flight, the check timer it clears is not armed;
    the promise is rejected with the timeout, but the response, still
    unprocessed, schedules the next poll, and when that timer fires a
    detail request is issued after the timeout. *)
Theorem timeout_during_fetch_keeps_polling (c : Client) (s : Poller)
    (id : nat) (t : timer) (r : Response) (v processed : value) :
  activation s = AwaitFetch ->
  result s = Pending ->
  find_timer id s = Some t ->
  kind t = AbortTimer ->
  Forall (fun t' => (timer_id t' < next_timer s)%nat) (timers s) ->
  ok r = true ->
  json r = Normal v ->
  Get v "processed" = Normal processed ->
  truthy processed = false ->
  let s1 := validation_step c s (TimerFired id) in
  let s2 := run (validation_step c) s1 [FetchSettled (Normal r); JsonSettled] in
  let s3 := validation_step c s2 (TimerFired (next_timer s)) in
  (result s1 = Rejected (Error "Validation Timeout.")
   /\ activation s1 = AwaitFetch)
  /\ find_timer (next_timer s) s2
     = Some {| timer_id := next_timer s; kind := CheckTimer;
               delay := validationCheckInterval c |}
  /\ result s3 = Rejected (Error "Validation Timeout.")
  /\ activation s3 = AwaitFetch
  /\ trace (world s3)
     = trace (world s2)
         ++ [Logged [VStr ("Fetching URL: " +:+ detailUrl s)]]
         ++ [Fetched (fetch_request c (detailUrl s) "GET" None)].
Proof.
  intros Hact Hres Hfind Hkind Hfresh Hok Hjson Hget Hfalsy s1 s2 s3.
  destruct (abort_timer_fires c s id t Hfind Hkind)
    as (Hr1 & Ha1 & Hn1 & Hu1 & _ & Hts1).
  fold s1 in Hr1, Ha1, Hn1, Hu1, Hts1.
  rewrite Hres in Hr1. simpl in Hr1. rewrite Hact in Ha1.
  assert (Hfresh1 : Forall (fun t' => (timer_id t' < next_timer s1)%nat) (timers s1)).
  { rewrite Hn1. now apply Hts1. }
  destruct (unprocessed_schedules_next_poll c s1 r v processed
              Ha1 Hfresh1 Hok Hjson Hget Hfalsy) as (Hr2 & Hf2 & Hu2).
  fold s2 in Hr2, Hf2, Hu2. rewrite Hn1 in Hf2.
  destruct (check_timer_polls c s2 (next_timer s) _ Hf2 eq_refl)
    as (Hr3 & Ha3 & Ht3).
  fold s3 in Hr3, Ha3, Ht3.
  split; [split; [exact Hr1 | exact Ha1]|].
  split; [exact Hf2|].
  split; [congruence|].
  split; [exact Ha3|].
  rewrite Ht3, Hu2, Hu1. reflexivity.
Qed.

Lemma timeout_during_fetch_witness :
  let s0 := waitForValidation amo upload_abc fresh_world in
  let r := json_response 200 "OK" still_processing in
  (activation s0 = AwaitFetch
   /\ find_timer 0 s0
      = Some {| timer_id := 0; kind := AbortTimer; delay := 300000 |})
  /\ (let s3 := run (validation_step amo) s0
                  [TimerFired 0; FetchSettled (Normal r); JsonSettled; TimerFired 1] in
      result s3 = Rejected (Error "Validation Timeout.")
      /\ activation s3 = AwaitFetch).
Proof.
  intros s0 r. split; [split; reflexivity|].
  destruct (timeout_during_fetch_keeps_polling amo s0 0%nat
              {| timer_id := 0; kind := AbortTimer; delay := 300000 |}
              r still_processing (VBool false)
              eq_refl eq_refl eq_refl eq_refl)
    as (_ & _ & H3 & H4 & _); try reflexivity.
  - repeat constructor.
  - split; [exact H3 | exact H4].
Defined.

(** The same run, request by request: the second one leaves after the
    timeout has rejected the promise. *)
Example poll_after_timeout :
  let s1 := validation_step amo (waitForValidation amo upload_abc fresh_world)
              (TimerFired 0) in
  let s3 := run (validation_step amo) s1
              [FetchSettled (Normal (json_response 200 "OK" still_processing));
               JsonSettled; TimerFired 1] in
  (result s1 = Rejected (Error "Validation Timeout.") /\ timers s1 = []
   /\ length (requests (trace (world s1))) = 1%nat)
  /\ length (requests (trace (world s3))) = 2%nat.
Proof. repeat split; vm_compute; reflexivity. Qed.

(** ** The timeout of a scheduled poll *)

Lemma no_elem_nil {A} (l : list A) : (forall x, x ∉ l) -> l = [].
Proof.
  destruct l as [|a l]; [reflexivity|]. intros H. exfalso.
  apply (H a), elem_of_cons. now left.
Qed.

Lemma tracked_fewer_timers s ts n :
  (forall t, t ∈ ts -> t ∈ timers s) ->
  timers_tracked s -> timers_tracked (set_timers ts n s).
Proof. intros Hsub H t Ht. apply (H t). now apply Hsub. Qed.

Lemma tracked_clearTimeout s id :
  timers_tracked s -> timers_tracked (clearTimeout id s).
Proof.
  intros H. destruct id as [i|]; [|exact H].
  apply tracked_fewer_timers; [|exact H].
  intros t Ht. now apply list_elem_of_filter in Ht as [_ Ht].
Qed.

Lemma tracked_set_result s p : timers_tracked s -> timers_tracked (set_result p s).
Proof. intros H t Ht. exact (H t Ht). Qed.

Lemma tracked_set_world s w : timers_tracked s -> timers_tracked (set_world w s).
Proof. intros H t Ht. exact (H t Ht). Qed.

Lemma tracked_Idle s : timers_tracked s -> timers_tracked (set_activation Idle s).
Proof.
  intros H t Ht. specialize (H t Ht). unfold timer_tracked in *.
  destruct (kind t); [exact H|]. destruct H as [H _]. now split.
Qed.

(** While an activation runs no check timer is armed, so the activation
    can move on. *)
Lemma tracked_activation s a :
  activation s <> Idle -> timers_tracked s -> timers_tracked (set_activation a s).
Proof.
  intros Hact H t Ht. specialize (H t Ht). unfold timer_tracked in *.
  destruct (kind t); [exact H|]. destruct H as [_ H]. contradiction.
Qed.

Lemma tracked_poll_catch s e : timers_tracked s -> timers_tracked (poll_catch e s).
Proof.
  intros H. unfold poll_catch, reject.
  apply tracked_set_result, tracked_clearTimeout, tracked_Idle, H.
Qed.

(** Scheduling the next poll at the end of an activation. *)
Lemma tracked_schedule s d :
  activation s <> Idle -> timers_tracked s ->
  timers_tracked (let '(id, s1) := setTimeout CheckTimer d s in
                  set_activation Idle (set_checkTimeout id s1)).
Proof.
  intros Hact H t Ht. simpl in Ht. apply elem_of_app in Ht as [Ht|Ht].
  - specialize (H t Ht). unfold timer_tracked in *. simpl.
    destruct (kind t); [exact H|]. destruct H as [_ H]. contradiction.
  - apply list_elem_of_singleton in Ht. subst t. unfold timer_tracked. simpl. now split.
Qed.

(** A check timer that fires leaves none behind. *)
Lemma tracked_expire_check s id t :
  timers_tracked s -> find_timer id s = Some t -> kind t = CheckTimer ->
  timers_tracked (expire id s)
  /\ forall t', t' ∈ timers (expire id s) -> kind t' = AbortTimer.
Proof.
  intros H Hfind Hkind.
  unfold find_timer in Hfind. apply find_some in Hfind as [Hin Hid].
  apply Nat.eqb_eq in Hid. apply list_elem_of_In in Hin.
  pose proof (H t Hin) as Ht. unfold timer_tracked in Ht. rewrite Hkind in Ht.
  destruct Ht as [Hck _]. split.
  - apply tracked_fewer_timers; [|exact H].
    intros t' Ht'. now apply list_elem_of_filter in Ht' as [_ Ht'].
  - intros t' Ht'. simpl in Ht'. apply list_elem_of_filter in Ht' as [Hne Ht'].
    specialize (H t' Ht'). unfold timer_tracked in H.
    destruct (kind t'); [reflexivity|]. destruct H as [H _]. congruence.
Qed.

Lemma tracked_poll_start c s :
  timers_tracked s -> (forall t, t ∈ timers s -> kind t = AbortTimer) ->
  timers_tracked (poll_start c s).
Proof.
  intros H Hab t Ht. simpl in Ht. specialize (H t Ht). specialize (Hab t Ht).
  unfold timer_tracked in *. simpl. now rewrite Hab in *.
Qed.

Lemma tracked_validation_step c s ev :
  timers_tracked s -> timers_tracked (validation_step c s ev).
Proof.
  intros H. unfold validation_step.
  destruct (enabled s ev) eqn:Hen; [|exact H].
  destruct ev as [r| |id].
  - unfold enabled in Hen. destruct (activation s) eqn:Hact; try discriminate.
    unfold pollValidationStatus_fetched. destruct r as [r|e].
    + unfold poll_read_json. apply tracked_activation.
      * simpl. destruct (ok r); simpl; congruence.
      * apply tracked_set_world. destruct (ok r); [exact H|].
        now apply tracked_set_result.
    + now apply tracked_poll_catch.
  - destruct (activation s) as [| |r] eqn:Hact; try exact H.
    assert (Hrun : activation s <> Idle) by congruence.
    unfold pollValidationStatus_parsed.
    destruct (json r) as [v|e]; [|now apply tracked_poll_catch].
    unfold try_Get.
    destruct (Get v "processed") as [p|e]; [|now apply tracked_poll_catch].
    destruct (truthy p).
    + destruct (Get v "validation") as [x|e]; [|now apply tracked_poll_catch].
      destruct (Get v "valid") as [q|e];
        [|now apply tracked_poll_catch, tracked_set_world].
      destruct (truthy q).
      * destruct (Get v "uuid") as [i|e];
          [|now apply tracked_poll_catch, tracked_set_world].
        now apply tracked_Idle, tracked_set_result, tracked_set_world.
      * destruct (Get v "url") as [i|e].
        -- apply tracked_Idle, tracked_set_result, tracked_clearTimeout.
           now do 2 apply tracked_set_world.
        -- apply tracked_poll_catch, tracked_clearTimeout.
           now do 2 apply tracked_set_world.
    + now apply tracked_schedule.
  - destruct (find_timer id s) as [t|] eqn:Hfind; [|exact H].
    destruct (kind t) eqn:Hkind.
    + unfold abort_callback, reject.
      apply tracked_set_result, tracked_clearTimeout.
      apply tracked_fewer_timers; [|exact H].
      intros t' Ht'. now apply list_elem_of_filter in Ht' as [_ Ht'].
    + destruct (tracked_expire_check s id t H Hfind Hkind) as [H1 H2].
      now apply tracked_poll_start.
Qed.

Lemma tracked_waitForValidation c data w :
  timers_tracked (waitForValidation c data w).
Proof.
  unfold waitForValidation.
  destruct (Get data "uuid") as [uuid|e]; [|intros t Ht; inversion Ht].
  destruct (negb (truthy uuid)); [intros t Ht; inversion Ht|].
  intros t Ht. simpl in Ht. apply list_elem_of_singleton in Ht. now subst t.
Qed.

Lemma tracked_run c s evs :
  timers_tracked s -> timers_tracked (run (validation_step c) s evs).
Proof.
  revert s. induction evs as [|ev evs IH]; intros s H; [exact H|].
  simpl. apply IH. now apply tracked_validation_step.
Qed.

(** When the abort timer fires between two polls (a poll is scheduled, no
    detail fetch is in flight), [waitForValidation] clears the scheduled
    poll and rejects with the timeout; no timer is left, and no event can
    reach the poller afterwards, so it issues no further request. *)
Lemma timeout_between_polls_ends_polling (c : Client) (data : value) (w : World)
    (evs : list event) (id : nat) (t : timer) :
  let s := run (validation_step c) (waitForValidation c data w) evs in
  activation s = Idle ->
  find_timer id s = Some t ->
  kind t = AbortTimer ->
  let s' := validation_step c s (TimerFired id) in
  result s' = settle (result s) (Rejected (Error "Validation Timeout."))
  /\ timers s' = []
  /\ world s' = world s
  /\ forall evs', run (validation_step c) s' evs' = s'.
Proof.
  intros s Hact Hfind Hkind s'.
  assert (Htr : timers_tracked s) by apply tracked_run, tracked_waitForValidation.
  assert (Hs' : s' = abort_callback "Validation Timeout." (expire id s)).
  { unfold s', validation_step, enabled, armed. now rewrite Hfind, Hkind. }
  assert (Hts : timers s' = []).
  { rewrite Hs'. unfold abort_callback, reject. simpl.
    pose proof Hfind as Hin. unfold find_timer in Hin.
    apply find_some in Hin as [Hin Hid]. apply Nat.eqb_eq in Hid.
    apply list_elem_of_In in Hin. pose proof (Htr t Hin) as Ht.
    unfold timer_tracked in Ht. rewrite Hkind in Ht.
    apply no_elem_nil. intros t' Ht'.
    destruct (checkTimeout s) as [k|] eqn:Hck; simpl in Ht'.
    - apply list_elem_of_filter in Ht' as [Hne Ht'].
      apply list_elem_of_filter in Ht' as [Hne' Ht'].
      specialize (Htr t' Ht'). unfold timer_tracked in Htr.
      destruct (kind t'); [congruence|]. destruct Htr as [Htr _]. congruence.
    - apply list_elem_of_filter in Ht' as [Hne' Ht'].
      specialize (Htr t' Ht'). unfold timer_tracked in Htr.
      destruct (kind t'); [congruence|]. destruct Htr as [Htr _]. congruence. }
  split; [|split; [exact Hts|split]].
  - rewrite Hs'. unfold abort_callback, reject. simpl.
    destruct (checkTimeout s); reflexivity.
  - rewrite Hs'. unfold abort_callback, reject. simpl.
    destruct (checkTimeout s); reflexivity.
  - intros evs'. apply quiescent_validation; [exact Hts|].
    rewrite Hs'. unfold abort_callback, reject. simpl.
    destruct (checkTimeout s); exact Hact.
Qed.

(** ** getJson *)




(** A body that does not parse leaves the promise of [getJson] pending. *)
Lemma getJson_unparsable response w e :
  100 <= status response < 500 ->
  json response = Throw e ->
  getJson response w = (Pending, emit (ReadJson response) w).
Proof.
  intros Hrange Hjson. unfold getJson.
  replace ((status response <? 100) || (500 <=? status response)) with false.
  2:{ symmetry. apply orb_false_iff. rewrite Z.ltb_ge, Z.leb_gt. lia. }
  now rewrite Hjson.
Qed.


(** ** The file extractors *)

(** C7: for channel "listed" the extractor of [submitAddon] returns the
    [file] of the record under [current_version], for "unlisted" the
    [file] of the record under [latest_unlisted_version]; the extractor of
    [submitVersion] returns the [file] of the version record itself and
    takes no channel. *)
Theorem extractFileFromData_projects (props : list (string * value)) :
  (forall version file,
      obj_lookup "current_version" props = Some (VObj version) ->
      obj_lookup "file" version = Some file ->
      submitAddon_extractFileFromData "listed" (VObj props) = Normal file)
  /\ (forall version file,
      obj_lookup "latest_unlisted_version" props = Some (VObj version) ->
      obj_lookup "file" version = Some file ->
      submitAddon_extractFileFromData "unlisted" (VObj props) = Normal file)
  /\ (forall file,
      obj_lookup "file" props = Some file ->
      submitVersion_extractFileFromData (VObj props) = Normal file).
Proof.
  repeat split.
  - intros version file H1 H2. unfold submitAddon_extractFileFromData. simpl.
    rewrite H1. simpl. now rewrite H2.
  - intros version file H1 H2. unfold submitAddon_extractFileFromData. simpl.
    rewrite H1. simpl. now rewrite H2.
  - intros file H. unfold submitVersion_extractFileFromData. simpl. now rewrite H.
Qed.

Lemma extractFileFromData_witness :
  submitAddon_extractFileFromData "listed" listed_addon = Normal public_file
  /\ submitAddon_extractFileFromData "unlisted" unlisted_addon
     = Normal (VObj [("status", VStr "unreviewed")])
  /\ submitVersion_extractFileFromData (VObj [("id", VNum 7); ("file", public_file)])
     = Normal public_file.
Proof.
  split; [|split].
  - apply (proj1 (extractFileFromData_projects _)
             [("id", VNum 7); ("file", public_file)]); reflexivity.
  - apply (proj1 (proj2 (extractFileFromData_projects _))
             [("id", VNum 8); ("file", VObj [("status", VStr "unreviewed")])]);
      reflexivity.
  - apply (proj2 (proj2 (extractFileFromData_projects _))); reflexivity.
Defined.

(** Any channel other than "listed" reads [latest_unlisted_version]. *)
Lemma extractFileFromData_not_listed channel data :
  channel <> "listed" ->
  submitAddon_extractFileFromData channel data
  = (v ← Get data "latest_unlisted_version"; Get v "file").
Proof.
  intros H. unfold submitAddon_extractFileFromData.
  destruct (String.eqb_spec channel "listed"); [contradiction|reflexivity].
Qed.

(** A record without the version sub-record makes the extractor throw. *)
Lemma extractFileFromData_missing_version :
  submitAddon_extractFileFromData "listed" unlisted_addon
  = Throw (TypeError VUndefined "file").
Proof. reflexivity. Qed.

(** ** saveFile *)

(** C9: [saveFile] rejects with the download failure exactly when the
    response is not ok or has no body stream, and then leaves the disk
    alone; otherwise the body goes to [downloadDir/the.xpi], replacing
    whatever the path held, and an I/O failure rejects with the error of
    the stream. *)
Theorem saveFile_contract (c : Client) (response : Response) (io : io_result)
    (w : World) :
  let DownloadFailed :=
    Error ("Download of signed xpi failed: " +:+ statusText response +:+ ".") in
  let dest := downloadDir c +:+ "/the.xpi" in
  (fst (saveFile c response io w) = Rejected DownloadFailed
   <-> ok response = false \/ body response = None)
  /\ (ok response = false \/ body response = None ->
      saveFile c response io w = (Rejected DownloadFailed, w))
  /\ (forall bytes,
        ok response = true -> body response = Some bytes ->
        (io = IoOk ->
           fst (saveFile c response io w) = Resolved VUndefined
           /\ files (snd (saveFile c response io w)) !! dest = Some bytes
           /\ (forall path, path <> dest ->
                 files (snd (saveFile c response io w)) !! path = files w !! path)
           /\ trace (snd (saveFile c response io w)) = trace w)
        /\ (forall code, io = IoOpenError code ->
              saveFile c response io w = (Rejected (SystemError code), w))
        /\ (forall n code, io = IoWriteError n code ->
              fst (saveFile c response io w) = Rejected (SystemError code)
              /\ files (snd (saveFile c response io w)) !! dest = Some (take n bytes))).
Proof.
  simpl. unfold saveFile.
  destruct (ok response) eqn:Hok; destruct (body response) as [bytes|] eqn:Hbody.
  - split; [|split].
    + split.
      * destruct io; simpl; discriminate.
      * intros [H|H]; discriminate.
    + intros [H|H]; discriminate.
    + intros bs _ Hbs. injection Hbs as <-. split; [|split].
      * intros ->. split; [reflexivity|]. split; [|split; [|reflexivity]]; simpl.
        -- apply lookup_insert_eq.
        -- intros path Hne. now apply lookup_insert_ne.
      * intros code ->. reflexivity.
      * intros n code ->. split; [reflexivity|]. simpl. apply lookup_insert_eq.
  - split; [|split]; [split; auto | reflexivity | intros bs _ H; discriminate].
  - split; [|split]; [split; auto | reflexivity | intros bs H; discriminate].
  - split; [|split]; [split; auto | reflexivity | intros bs H; discriminate].
Qed.

Lemma saveFile_witness :
  let signed :=
    {| status := 200; statusText := "OK"; json := Throw SyntaxError;
       body := Some [Byte.x50; Byte.x4b; Byte.x03; Byte.x04] |} in
  let stale :=
    {| trace := []; files := {[ "/home/dev/the.xpi" := [Byte.x00] ]} |} in
  (ok signed = true /\ ok not_found = false)
  /\ files (snd (saveFile amo signed IoOk stale)) !! "/home/dev/the.xpi"
     = Some [Byte.x50; Byte.x4b; Byte.x03; Byte.x04]
  /\ saveFile amo not_found IoOk stale
     = (Rejected (Error "Download of signed xpi failed: Not Found."), stale).
Proof.
  intros signed stale. split; [split; reflexivity|]. split.
  - apply (proj2 (proj2 (saveFile_contract amo signed IoOk stale))
             [Byte.x50; Byte.x4b; Byte.x03; Byte.x04]); reflexivity.
  - apply (proj1 (proj2 (saveFile_contract amo not_found IoOk stale))).
    left. reflexivity.
Defined.

(** ** The submit requests *)

Lemma obj_lookup_set_eq k v t : obj_lookup k (obj_set k v t) = Some v.
Proof.
  induction t as [|[k' v'] t IH]; simpl.
  - now rewrite String.eqb_refl.
  - destruct (String.eqb k' k) eqn:E; simpl; now rewrite E.
Qed.

Lemma obj_lookup_set_ne k k' v t :
  k' <> k -> obj_lookup k (obj_set k' v t) = obj_lookup k t.
Proof.
  intros Hne. apply String.eqb_neq in Hne.
  induction t as [|[k1 v1] t IH]; simpl.
  - now rewrite Hne.
  - destruct (String.eqb k1 k') eqn:E; simpl.
    + apply String.eqb_eq in E. subst k1. now rewrite Hne.
    + destruct (String.eqb k1 k); [reflexivity|exact IH].
Qed.

Lemma obj_lookup_None_notin k props :
  k ∉ props.*1 -> obj_lookup k props = None.
Proof.
  induction props as [|[k' v'] props IH]; [reflexivity|].
  simpl. intros Hnin. apply not_elem_of_cons in Hnin as [Hne Hnin].
  destruct (String.eqb_spec k' k); [congruence|]. now apply IH.
Qed.

Lemma obj_lookup_Some_in k v props :
  obj_lookup k props = Some v -> k ∈ props.*1.
Proof.
  induction props as [|[k' v'] props IH]; [discriminate|].
  simpl. destruct (String.eqb_spec k' k) as [->|Hne].
  - intros _. apply elem_of_cons. now left.
  - intros H. apply elem_of_cons. right. now apply IH.
Qed.

(** A spread property wins over the one written before it. *)
Lemma obj_lookup_spread k (src target : list (string * value)) :
  NoDup src.*1 ->
  obj_lookup k (spread target (VObj src))
  = match obj_lookup k src with
    | Some v => Some v
    | None => obj_lookup k target
    end.
Proof.
  unfold spread. simpl. revert target.
  induction src as [|[k1 v1] src IH]; intros target Hnd; [reflexivity|].
  simpl in *. apply NoDup_cons in Hnd as [Hnin Hnd]. rewrite (IH _ Hnd).
  destruct (String.eqb_spec k1 k) as [->|Hne].
  - rewrite (obj_lookup_None_notin _ _ Hnin). apply obj_lookup_set_eq.
  - destruct (obj_lookup k src); [reflexivity|]. now apply obj_lookup_set_ne.
Qed.

(** Once the source assigns [k], what the target bound to [k] at its head
    is gone without trace. *)
Lemma spread_forgets_head k (src tail : list (string * value)) (x1 x2 : value) :
  k ∈ src.*1 ->
  spread ((k, x1) :: tail) (VObj src) = spread ((k, x2) :: tail) (VObj src).
Proof.
  unfold spread. simpl. revert tail.
  induction src as [|[k1 v1] src IH]; intros tail Hin.
  - now apply elem_of_nil in Hin.
  - simpl. rewrite String.eqb_sym.
    destruct (String.eqb_spec k1 k) as [->|Hne]; [reflexivity|].
    apply IH. simpl in Hin. apply elem_of_cons in Hin as [Heq|Hin]; [congruence|exact Hin].
Qed.

(** C10: metadata with a key "version" (for [doNewAddonSubmit]) or
    "upload" (for [doNewVersionSubmit]) is spread over the generated
    binding: the body sent binds that key to the metadata's value and is
    the same whatever the upload id. *)
Theorem metadata_replaces_upload_binding (c : Client)
    (meta : list (string * value)) (v : value) (reply : promise Response)
    (w : World) :
  NoDup meta.*1 ->
  (obj_lookup "version" meta = Some v ->
     exists jsonData,
       obj_lookup "version" jsonData = Some v
       /\ forall uuid,
            doNewAddonSubmit c (VObj meta) uuid reply w
            = fetch_promise c (apiUrlPrefix c +:+ "addons/addon/") "POST"
                (Some (StringBody (VObj jsonData))) reply w)
  /\ (obj_lookup "upload" meta = Some v ->
      forall addonId,
      exists jsonData,
        obj_lookup "upload" jsonData = Some v
        /\ forall uuid,
             doNewVersionSubmit c addonId (VObj meta) uuid reply w
             = fetch_promise c
                 (apiUrlPrefix c +:+ "addons/addon/" +:+ addonId +:+ "/versions/")
                 "POST" (Some (StringBody (VObj jsonData))) reply w).
Proof.
  intros Hnd. split.
  - intros Hv.
    exists (spread [("version", VObj [("upload", VUndefined)])] (VObj meta)). split.
    + rewrite (obj_lookup_spread _ _ _ Hnd). now rewrite Hv.
    + intros uuid. unfold doNewAddonSubmit.
      now rewrite (spread_forgets_head "version" meta [] (VObj [("upload", uuid)])
                     (VObj [("upload", VUndefined)]) (obj_lookup_Some_in _ _ _ Hv)).
  - intros Hv addonId.
    exists (spread [("upload", VUndefined)] (VObj meta)). split.
    + rewrite (obj_lookup_spread _ _ _ Hnd). now rewrite Hv.
    + intros uuid. unfold doNewVersionSubmit.
      now rewrite (spread_forgets_head "upload" meta [] uuid VUndefined
                     (obj_lookup_Some_in _ _ _ Hv)).
Qed.

Lemma metadata_replaces_witness :
  NoDup [("name", VStr "x"); ("version", VObj [("license", VStr "MPL-2.0")])].*1
  /\ exists jsonData,
       obj_lookup "version" jsonData = Some (VObj [("license", VStr "MPL-2.0")])
       /\ forall uuid,
            doNewAddonSubmit amo
              (VObj [("name", VStr "x"); ("version", VObj [("license", VStr "MPL-2.0")])])
              uuid Pending fresh_world
            = fetch_promise amo (apiUrlPrefix amo +:+ "addons/addon/") "POST"
                (Some (StringBody (VObj jsonData))) Pending fresh_world.
Proof.
  assert (Hnd : NoDup [("name", VStr "x");
                       ("version", VObj [("license", VStr "MPL-2.0")])].*1).
  { apply (bool_decide_unpack _). reflexivity. }
  split; [exact Hnd|].
  apply (proj1 (metadata_replaces_upload_binding amo _
                  (VObj [("license", VStr "MPL-2.0")]) Pending fresh_world Hnd)).
  reflexivity.
Defined.

(** Metadata without the key leaves the upload id in the body. *)
Lemma upload_binding_kept (meta : list (string * value)) (uuid : value) :
  NoDup meta.*1 ->
  (obj_lookup "version" meta = None ->
     obj_lookup "version" (spread [("version", VObj [("upload", uuid)])] (VObj meta))
     = Some (VObj [("upload", uuid)]))
  /\ (obj_lookup "upload" meta = None ->
      obj_lookup "upload" (spread [("upload", uuid)] (VObj meta)) = Some uuid).
Proof.
  intros Hnd. split; intros H; rewrite (obj_lookup_spread _ _ _ Hnd), H; reflexivity.
Qed.

(** ** The workflows *)

Section WorkflowChain.
Context (c : Client) (xpi channel : string) (net : Network).
Context (submit : value -> promise Response -> Chain Response)
        (getDetailUrl : value -> Chain string)
        (extractFileFromData : value -> completion value).


(** The stages are functions, so a run has one outcome. *)
Lemma workflow_deterministic w0 out out' :
  workflow c xpi channel net submit getDetailUrl extractFileFromData w0 out ->
  workflow c xpi channel net submit getDetailUrl extractFileFromData w0 out' ->
  out = out'.
Proof.
  intros H H'.
  destruct H; destruct H';
    repeat match goal with
           | h : halt |- _ => destruct h; simpl in *
           | H1 : ?l = _, H2 : ?l = _ |- _ =>
               rewrite H1 in H2; first [discriminate H2 | injection H2 as <-; subst]
           end;
    try reflexivity; try congruence.
Qed.
End WorkflowChain.


(** A stage that rejects ends the run: nothing is requested, logged or
    written after it. *)
Lemma workflow_stops_at_validation c xpi channel net submit getDetailUrl
    extractFileFromData w0 r1 w1 d1 w2 e w3 out :
  doUploadSubmit c xpi channel (upload_reply net) w0 = (Resolved r1, w1) ->
  getJson r1 w1 = (Resolved d1, w2) ->
  waitForValidation_promise c (validation_events net) d1 w2 = (Rejected e, w3) ->
  workflow c xpi channel net submit getDetailUrl extractFileFromData w0 out ->
  out = (Rejected e, w3).
Proof.
  intros H1 H2 H3 H. eapply workflow_deterministic; [exact H|].
  eapply (halt_validation) with (h := Fails e); eassumption.
Qed.

(** ** Scenarios *)

(** The upload response [{uuid: "abc"}], a first poll still unprocessed,
    a second one processed and valid: the promise resolves to "abc" after
    two requests to the upload's detail URL. *)
Example second_poll_resolves :
  let s := run (validation_step amo) (waitForValidation amo upload_abc fresh_world)
             (validation_events smooth_run) in
  result s = Resolved (VStr "abc")
  /\ map url (requests (trace (world s)))
     = ["https://addons.mozilla.org/api/v5/addons/upload/abc/";
        "https://addons.mozilla.org/api/v5/addons/upload/abc/"].
Proof. split; vm_compute; reflexivity. Qed.

(** Upload, validation, submit, approval and download all succeed: the
    requests go out in pipeline order and the saved file is the body of
    the download. *)
Example smooth_run_saves_the_download :
  let out := submitAddon amo "addon.xpi" "listed" (VObj [("name", VStr "x")])
               smooth_run dev_world in
  fst out = Resolved VUndefined
  /\ files (snd out) !! "/home/dev/the.xpi" = body signed_xpi
  /\ map (fun rq => (method rq, url rq)) (requests (trace (snd out)))
     = [("POST", "https://addons.mozilla.org/api/v5/addons/upload/");
        ("GET", "https://addons.mozilla.org/api/v5/addons/upload/abc/");
        ("GET", "https://addons.mozilla.org/api/v5/addons/upload/abc/");
        ("POST", "https://addons.mozilla.org/api/v5/addons/addon/");
        ("GET", "https://addons.mozilla.org/api/v5/addons/addon/my-addon/");
        ("GET", "https://addons.mozilla.org/the.xpi")]
  /\ map req_body (filter (fun rq => method rq = "POST") (requests (trace (snd out))))
     = [Some (FormBody [("channel", FText "listed"); ("upload", FFile "addon.xpi")]);
        Some (StringBody (VObj [("version", VObj [("upload", VStr "abc")]);
                                ("name", VStr "x")]))].
Proof. repeat split; vm_compute; reflexivity. Qed.

(** A package that fails validation: the run ends with the report URL
    after the poll, and no submit, approval or download request is made. *)
Example invalid_run_stops_after_validation :
  let out := submitVersion amo "addon.xpi" "unlisted" "my-addon" (VObj [])
               invalid_run dev_world in
  fst out = Rejected (Error "https://addons.mozilla.org/upload/abc")
  /\ files (snd out) = files dev_world
  /\ map (fun rq => (method rq, url rq)) (requests (trace (snd out)))
     = [("POST", "https://addons.mozilla.org/api/v5/addons/upload/");
        ("GET", "https://addons.mozilla.org/api/v5/addons/upload/abc/")].
Proof. repeat split; vm_compute; reflexivity. Qed.

(** * Further properties *)

(** ** What the pollers request *)

Lemma requests_emit e w :
  requests (trace (emit e w))
  = requests (trace w) ++ match e with
                          | Fetched rq => [rq]
                          | _ => []
                          end.
Proof. unfold requests, emit. simpl. rewrite omap_app. now destruct e. Qed.

(** Case analysis on every branch of a step. *)
Ltac break_step :=
  repeat match goal with
         | |- context [match ?x with _ => _ end] => destruct x eqn:?; simpl
         | |- context [if ?x then _ else _] => destruct x eqn:?; simpl
         end.

Ltac unfold_poller :=
  unfold validation_step, approval_step,
    pollValidationStatus_fetched, pollValidationStatus_parsed,
    pollApprovalStatus_fetched, pollApprovalStatus_parsed,
    try_Get, poll_catch, poll_start, poll_read_json, abort_callback, expire,
    reject, resolve, log, clearTimeout, setTimeout, fetch.

Lemma validation_step_requests c s ev :
  detailUrl (validation_step c s ev) = detailUrl s
  /\ (requests (trace (world (validation_step c s ev))) = requests (trace (world s))
      \/ requests (trace (world (validation_step c s ev)))
         = requests (trace (world s)) ++ [fetch_request c (detailUrl s) "GET" None]).
Proof.
  destruct s as [w p ts n ab ck u a]. unfold_poller. simpl.
  break_step; split; try reflexivity;
    unfold requests; simpl; rewrite ?omap_app; simpl; rewrite ?app_nil_r;
    first [left; reflexivity | right; reflexivity].
Qed.

Lemma approval_step_requests c ex s ev :
  detailUrl (approval_step c ex s ev) = detailUrl s
  /\ (requests (trace (world (approval_step c ex s ev))) = requests (trace (world s))
      \/ requests (trace (world (approval_step c ex s ev)))
         = requests (trace (world s)) ++ [fetch_request c (detailUrl s) "GET" None]).
Proof.
  destruct s as [w p ts n ab ck u a]. unfold_poller. simpl.
  break_step; split; try reflexivity;
    unfold requests; simpl; rewrite ?omap_app; simpl; rewrite ?app_nil_r;
    first [left; reflexivity | right; reflexivity].
Qed.

(** Whatever the events, a poller adds nothing to the requests but
    repetitions of the one GET of its detail URL. *)
Lemma run_requests (step : Poller -> event -> Poller) (rq : string -> Request)
    (s : Poller) (evs : list event) :
  (forall s ev,
      detailUrl (step s ev) = detailUrl s
      /\ (requests (trace (world (step s ev))) = requests (trace (world s))
          \/ requests (trace (world (step s ev)))
             = requests (trace (world s)) ++ [rq (detailUrl s)])) ->
  exists n,
    requests (trace (world (run step s evs)))
    = requests (trace (world s)) ++ replicate n (rq (detailUrl s)).
Proof.
  intros Hstep. revert s. induction evs as [|ev evs IH]; intros s.
  - exists 0%nat. simpl. now rewrite app_nil_r.
  - change (run step s (ev :: evs)) with (run step (step s ev) evs).
    destruct (Hstep s ev) as [Hu [Hsame|Hmore]];
      destruct (IH (step s ev)) as [n Hn]; rewrite Hn, Hu.
    + exists n. now rewrite Hsame.
    + exists (S n). rewrite Hmore, <- app_assoc. reflexivity.
Qed.

Lemma waitForValidation_start c data uuid w :
  Get data "uuid" = Normal uuid ->
  truthy uuid = true ->
  waitForValidation c data w
  = {| world := fetch c (apiUrlPrefix c +:+ "addons/upload/" +:+ ToString uuid +:+ "/")
                      "GET" None w;
       result := Pending;
       timers := [{| timer_id := 0; kind := AbortTimer;
                     delay := validationCheckTimeout c |}];
       next_timer := 1;
       abortTimeout := Some 0%nat;
       checkTimeout := None;
       detailUrl := apiUrlPrefix c +:+ "addons/upload/" +:+ ToString uuid +:+ "/";
       activation := AwaitFetch |}.
Proof. intros Hget Ht. unfold waitForValidation. now rewrite Hget, Ht. Qed.

(** X1: for a client that can sign and an upload whose identifier is
    truthy and converts to a string, every request [waitForValidation]
    makes, from its call on and whatever the event loop delivers, is the
    same GET of [apiUrlPrefix addons/upload/uuid/], and it makes at least
    one. *)
Theorem validation_polls_one_url (c : Client) (data uuid : value) (w : World)
    (evs : list event) :
  can_sign c ->
  Get data "uuid" = Normal uuid ->
  truthy uuid = true ->
  String_exact uuid ->
  exists n,
    requests (trace (world (run (validation_step c) (waitForValidation c data w) evs)))
    = requests (trace w)
        ++ replicate (S n)
             (fetch_request c
                (apiUrlPrefix c +:+ "addons/upload/" +:+ ToString uuid +:+ "/")
                "GET" None).
Proof.
  intros _ Hget Ht _.
  destruct (run_requests (validation_step c)
              (fun u => fetch_request c u "GET" None)
              (waitForValidation c data w) evs (validation_step_requests c))
    as [n Hn].
  exists n. rewrite Hn, (waitForValidation_start c data uuid w Hget Ht).
  unfold requests. simpl. rewrite !omap_app, <- !app_assoc. reflexivity.
Qed.

Lemma validation_polls_witness :
  (can_sign amo /\ Get upload_abc "uuid" = Normal (VStr "abc")
   /\ truthy (VStr "abc") = true /\ String_exact (VStr "abc"))
  /\ exists n,
       requests (trace (world (run (validation_step amo)
                                   (waitForValidation amo upload_abc fresh_world)
                                   (validation_events smooth_run))))
       = requests (trace fresh_world)
           ++ replicate (S n)
                (fetch_request amo
                   (apiUrlPrefix amo +:+ "addons/upload/" +:+ ToString (VStr "abc") +:+ "/")
                   "GET" None).
Proof.
  assert (Hsign : can_sign amo) by discriminate.
  assert (Hexact : String_exact (VStr "abc")) by (split; reflexivity).
  split; [split; [exact Hsign | split; [reflexivity | split; [reflexivity | exact Hexact]]]|].
  exact (validation_polls_one_url amo upload_abc (VStr "abc") fresh_world
           (validation_events smooth_run) Hsign eq_refl eq_refl Hexact).
Defined.

(** X2: for a client that can sign, every request [waitForApproval]
    makes is the same GET of the detail URL it was given, and it makes at
    least one. *)
Theorem approval_polls_one_url (c : Client) (ex : value -> completion value)
    (u : string) (w : World) (evs : list event) :
  can_sign c ->
  exists n,
    requests (trace (world (run (approval_step c ex) (waitForApproval c u w) evs)))
    = requests (trace w) ++ replicate (S n) (fetch_request c u "GET" None).
Proof.
  intros _.
  destruct (run_requests (approval_step c ex)
              (fun u => fetch_request c u "GET" None)
              (waitForApproval c u w) evs (approval_step_requests c ex))
    as [n Hn].
  exists n. rewrite Hn.
  unfold requests. simpl. rewrite !omap_app, <- !app_assoc. reflexivity.
Qed.

Lemma approval_polls_witness :
  can_sign amo
  /\ exists n,
       requests (trace (world (run (approval_step amo
                                      (submitAddon_extractFileFromData "listed"))
                                   (waitForApproval amo approval_url fresh_world)
                                   (approval_events smooth_run))))
       = requests (trace fresh_world)
           ++ replicate (S n) (fetch_request amo approval_url "GET" None).
Proof.
  assert (Hsign : can_sign amo) by discriminate.
  split; [exact Hsign|].
  exact (approval_polls_one_url amo (submitAddon_extractFileFromData "listed")
           approval_url fresh_world (approval_events smooth_run) Hsign).
Defined.

(** ** A promise settles once *)

Lemma validation_step_settled c s ev :
  settled (result s) = true -> result (validation_step c s ev) = result s.
Proof.
  destruct s as [w p ts n ab ck u a]. simpl. intros Hp.
  destruct p; [discriminate| |]; unfold_poller; simpl; break_step; reflexivity.
Qed.

Lemma approval_step_settled c ex s ev :
  settled (result s) = true -> result (approval_step c ex s ev) = result s.
Proof.
  destruct s as [w p ts n ab ck u a]. simpl. intros Hp.
  destruct p; [discriminate| |]; unfold_poller; simpl; break_step; reflexivity.
Qed.

Lemma run_settled (step : Poller -> event -> Poller) (s : Poller) (evs : list event) :
  (forall s ev, settled (result s) = true -> result (step s ev) = result s) ->
  settled (result s) = true -> result (run step s evs) = result s.
Proof.
  intros Hstep. revert s. induction evs as [|ev evs IH]; intros s Hs; [reflexivity|].
  change (run step s (ev :: evs)) with (run step (step s ev) evs).
  rewrite IH; [now apply Hstep|]. now rewrite Hstep.
Qed.

(** The poller at which the chain goes on is the poller after some prefix
    of the events. *)
Lemma await_poller_prefix step s evs :
  exists k, await_poller step s evs = run step s (take k evs).
Proof.
  revert s. induction evs as [|ev evs IH]; intros s.
  - exists 0%nat. simpl. now destruct (settled (result s)).
  - simpl. destruct (settled (result s)) eqn:Hs.
    + now exists 0%nat.
    + destruct (IH (step s ev)) as [k Hk]. exists (S k). exact Hk.
Qed.

Lemma await_then_run (step : Poller -> event -> Poller) (s : Poller)
    (evs more : list event) :
  (forall s ev, settled (result s) = true -> result (step s ev) = result s) ->
  settled (result (await_poller step s evs)) = true ->
  result (run step s (evs ++ more)) = result (await_poller step s evs).
Proof.
  intros Hstep Hset. destruct (await_poller_prefix step s evs) as [k Hk].
  rewrite Hk in *.
  rewrite <- (take_drop k evs) at 1. rewrite <- app_assoc.
  unfold run at 1. rewrite fold_left_app.
  now apply (run_settled step).
Qed.

(** X3: the way the promise of a poller has settled when the chain goes
    on is the way it stays, whatever is delivered afterwards (a late
    response, the abort timer): a later [resolve] or [reject] changes
    nothing. *)
Theorem poller_settles_once (c : Client) (ex : value -> completion value)
    (data : value) (u : string) (w : World) (evs more : list event) :
  (fst (waitForValidation_promise c evs data w) <> Pending ->
   result (run (validation_step c) (waitForValidation c data w) (evs ++ more))
   = fst (waitForValidation_promise c evs data w))
  /\ (fst (waitForApproval_promise c ex evs u w) <> Pending ->
      result (run (approval_step c ex) (waitForApproval c u w) (evs ++ more))
      = fst (waitForApproval_promise c ex evs u w)).
Proof.
  unfold waitForValidation_promise, waitForApproval_promise. simpl. split; intros H.
  - apply await_then_run; [apply validation_step_settled|].
    destruct (result (await_poller _ _ _)); [contradiction|reflexivity|reflexivity].
  - apply await_then_run; [apply approval_step_settled|].
    destruct (result (await_poller _ _ _)); [contradiction|reflexivity|reflexivity].
Qed.

Lemma poller_settles_once_witness :
  fst (waitForValidation_promise amo
         [FetchSettled (Normal (json_response 200 "OK" processed_valid)); JsonSettled]
         upload_abc fresh_world) <> Pending
  /\ result (run (validation_step amo) (waitForValidation amo upload_abc fresh_world)
               ([FetchSettled (Normal (json_response 200 "OK" processed_valid));
                 JsonSettled] ++ [TimerFired 0]))
     = Resolved (VStr "abc").
Proof.
  assert (H : fst (waitForValidation_promise amo
                     [FetchSettled (Normal (json_response 200 "OK" processed_valid));
                      JsonSettled] upload_abc fresh_world) <> Pending)
    by discriminate.
  split; [exact H|].
  exact (proj1 (poller_settles_once amo submitVersion_extractFileFromData
                  upload_abc "" fresh_world _ [TimerFired 0]) H).
Defined.

(** ** Approval status *)

(** [file.status === "public"] holds of the string "public" and of
    nothing else. *)
Lemma status_public {A} (a b : A) :
  match VStr "public" with
  | VStr "public" => a
  | _ => b
  end = a.
Proof. reflexivity. Qed.

Lemma status_not_public {A} (st : value) (a b : A) :
  st <> VStr "public" ->
  match st with
  | VStr "public" => a
  | _ => b
  end = b.
Proof.
  intros Hne. destruct st as [| | | |s| |]; try reflexivity.
  repeat (destruct s as [|[[] [] [] [] [] [] [] []] s]; try reflexivity).
  now contradiction Hne.
Qed.

Lemma status_cases (st : value) : st = VStr "public" \/ st <> VStr "public".
Proof.
  destruct st as [| | | |s| |]; try (right; discriminate).
  destruct (String.eqb_spec s "public") as [->|Hne]; [now left|].
  right. intros H. injection H as ->. contradiction.
Qed.

(** ** One poll at a time *)

Lemma tracked_approval_step c ex s ev :
  timers_tracked s -> timers_tracked (approval_step c ex s ev).
Proof.
  intros H. unfold approval_step.
  destruct (enabled s ev) eqn:Hen; [|exact H].
  destruct ev as [r| |id].
  - unfold enabled in Hen. destruct (activation s) eqn:Hact; try discriminate.
    unfold pollApprovalStatus_fetched. destruct r as [r|e].
    + destruct (ok r).
      * unfold poll_read_json. apply tracked_activation; [simpl; congruence|].
        now apply tracked_set_world.
      * now apply tracked_Idle, tracked_set_result.
    + now apply tracked_poll_catch.
  - destruct (activation s) as [| |r] eqn:Hact; try exact H.
    assert (Hrun : activation s <> Idle) by congruence.
    unfold pollApprovalStatus_parsed.
    destruct (json r) as [v|e]; [|now apply tracked_poll_catch].
    destruct (ex v) as [file|e]; [|now apply tracked_poll_catch].
    unfold try_Get.
    destruct (Get file "status") as [st|e]; [|now apply tracked_poll_catch].
    destruct (status_cases st) as [->|Hne].
    + cbv beta iota.
      destruct (Get file "url") as [x|e]; [|now apply tracked_poll_catch].
      now apply tracked_Idle, tracked_set_result.
    + rewrite (status_not_public st _ _ Hne). now apply tracked_schedule.
  - destruct (find_timer id s) as [t|] eqn:Hfind; [|exact H].
    destruct (kind t) eqn:Hkind.
    + unfold abort_callback, reject.
      apply tracked_set_result, tracked_clearTimeout.
      apply tracked_fewer_timers; [|exact H].
      intros t' Ht'. now apply list_elem_of_filter in Ht' as [_ Ht'].
    + destruct (tracked_expire_check s id t H Hfind Hkind) as [H1 H2].
      now apply tracked_poll_start.
Qed.

Lemma tracked_waitForApproval c u w : timers_tracked (waitForApproval c u w).
Proof.
  intros t Ht. simpl in Ht. apply list_elem_of_singleton in Ht. now subst t.
Qed.

Lemma fresh_filter (P : timer -> Prop) `{forall t, Decision (P t)}
    (ts : list timer) (n : nat) :
  NoDup (timer_id <$> ts) /\ Forall (fun t => (timer_id t < n)%nat) ts ->
  NoDup (timer_id <$> filter P ts)
  /\ Forall (fun t => (timer_id t < n)%nat) (filter P ts).
Proof.
  intros [Hnd Hlt]. split.
  - eapply sublist_NoDup; [exact Hnd|]. apply fmap_sublist, sublist_filter. 
  - rewrite Forall_forall in *. intros t Ht.
    apply list_elem_of_filter in Ht as [_ Ht]. now apply Hlt.
Qed.

Lemma fresh_snoc (ts : list timer) (n : nat) (k : timer_kind) (d : Z) :
  NoDup (timer_id <$> ts) /\ Forall (fun t => (timer_id t < n)%nat) ts ->
  NoDup (timer_id <$> ts ++ [{| timer_id := n; kind := k; delay := d |}])
  /\ Forall (fun t => (timer_id t < S n)%nat)
            (ts ++ [{| timer_id := n; kind := k; delay := d |}]).
Proof.
  intros [Hnd Hlt]. split.
  - rewrite fmap_app. apply NoDup_app. split; [exact Hnd|]. split.
    + intros i Hi Hin. simpl in Hin. apply list_elem_of_singleton in Hin. subst i.
      apply list_elem_of_fmap in Hi as (t & Hid & Ht).
      rewrite Forall_forall in Hlt. specialize (Hlt t Ht). lia.
    + apply NoDup_singleton.
  - apply Forall_app. split.
    + eapply Forall_impl; [exact Hlt|]. simpl. intros. lia.
    + apply Forall_singleton. simpl. lia.
Qed.

Ltac solve_fresh :=
  unfold timers_fresh in *; simpl in *;
  repeat first [assumption | apply fresh_filter | apply fresh_snoc].

Lemma fresh_validation_step c s ev :
  timers_fresh s -> timers_fresh (validation_step c s ev).
Proof.
  destruct s as [w p ts n ab ck u a]. intros H.
  unfold_poller. simpl. break_step; solve_fresh.
Qed.

Lemma fresh_approval_step c ex s ev :
  timers_fresh s -> timers_fresh (approval_step c ex s ev).
Proof.
  destruct s as [w p ts n ab ck u a]. intros H.
  unfold approval_step. destruct (enabled _ ev); [|exact H].
  destruct ev as [r| |id].
  - unfold_poller. simpl. break_step; solve_fresh.
  - destruct a as [| |r]; try exact H. cbn [activation].
    unfold pollApprovalStatus_parsed, try_Get.
    destruct (json r) as [v|e]; [|unfold_poller; simpl; break_step; solve_fresh].
    destruct (ex v) as [file|e]; [|unfold_poller; simpl; break_step; solve_fresh].
    destruct (Get file "status") as [st|e];
      [|unfold_poller; simpl; break_step; solve_fresh].
    destruct (status_cases st) as [->|Hne].
    + cbv beta iota. unfold_poller. simpl. break_step; solve_fresh.
    + rewrite (status_not_public st _ _ Hne). solve_fresh.
  - unfold_poller. simpl. break_step; solve_fresh.
Qed.

Lemma fresh_waitForValidation c data w : timers_fresh (waitForValidation c data w).
Proof.
  unfold waitForValidation, timers_fresh.
  destruct (Get data "uuid") as [uuid|e]; simpl;
    [destruct (negb (truthy uuid)); simpl|];
    (split; [repeat constructor; set_solver | repeat constructor]).
Qed.

Lemma fresh_waitForApproval c u w : timers_fresh (waitForApproval c u w).
Proof.
  unfold timers_fresh. simpl. split; [repeat constructor; set_solver | repeat constructor].
Qed.

(** Both invariants hold along every run. *)
Lemma run_invariant (P : Poller -> Prop) (step : Poller -> event -> Poller)
    (s : Poller) (evs : list event) :
  (forall s ev, P s -> P (step s ev)) -> P s -> P (run step s evs).
Proof.
  intros Hstep. revert s. induction evs as [|ev evs IH]; intros s H; [exact H|].
  apply IH, Hstep, H.
Qed.

Lemma same_id_at_most_one (ts : list timer) (k : option nat) :
  NoDup (timer_id <$> ts) ->
  (forall t, t ∈ ts -> k = Some (timer_id t)) ->
  (length ts <= 1)%nat.
Proof.
  intros Hnd Hk. destruct ts as [|a [|b ts]]; simpl; try lia.
  exfalso.
  assert (Ha : k = Some (timer_id a)) by (apply Hk; set_solver).
  assert (Hb : k = Some (timer_id b)) by (apply Hk; set_solver).
  simpl in Hnd. apply NoDup_cons in Hnd as [Hnin _]. apply Hnin.
  rewrite Ha in Hb. injection Hb as ->. set_solver.
Qed.

Lemma one_poll_of_invariants s :
  timers_tracked s -> timers_fresh s -> one_poll_at_a_time s.
Proof.
  intros Htr [Hnd _]. unfold one_poll_at_a_time, timers_of.
  assert (Hsub : forall k,
             NoDup (timer_id <$> filter (fun t => kind t = k) (timers s))).
  { intros k. eapply sublist_NoDup; [exact Hnd|]. apply fmap_sublist, sublist_filter. }
  split; [|split].
  - apply (same_id_at_most_one _ (checkTimeout s)); [apply Hsub|].
    intros t Ht. apply list_elem_of_filter in Ht as [Hk Ht].
    specialize (Htr t Ht). unfold timer_tracked in Htr. rewrite Hk in Htr. apply Htr.
  - apply (same_id_at_most_one _ (abortTimeout s)); [apply Hsub|].
    intros t Ht. apply list_elem_of_filter in Ht as [Hk Ht].
    specialize (Htr t Ht). unfold timer_tracked in Htr. now rewrite Hk in Htr.
  - intros Hact. apply no_elem_nil. intros t Ht.
    apply list_elem_of_filter in Ht as [Hk Ht].
    specialize (Htr t Ht). unfold timer_tracked in Htr. rewrite Hk in Htr.
    destruct Htr as [_ Hidle]. contradiction.
Qed.

(** X4: at every moment of a [waitForValidation] or [waitForApproval],
    whatever the event loop has delivered, at most one poll is scheduled
    and at most one abort timer is armed, and no poll is scheduled while a
    poll is running (awaiting its fetch or its body). *)
Theorem pollers_poll_one_at_a_time (c : Client) (ex : value -> completion value)
    (data : value) (u : string) (w : World) (evs : list event) :
  one_poll_at_a_time (run (validation_step c) (waitForValidation c data w) evs)
  /\ one_poll_at_a_time (run (approval_step c ex) (waitForApproval c u w) evs).
Proof.
  split; apply one_poll_of_invariants.
  - apply run_invariant; [apply tracked_validation_step|apply tracked_waitForValidation].
  - apply run_invariant; [apply fresh_validation_step|apply fresh_waitForValidation].
  - apply run_invariant; [apply tracked_approval_step|apply tracked_waitForApproval].
  - apply run_invariant; [apply fresh_approval_step|apply fresh_waitForApproval].
Qed.

(** ** Errors and timeouts that end the polling *)

Lemma polling_over_is_final c ex s evs :
  polling_over s ->
  run (validation_step c) s evs = s /\ run (approval_step c ex) s evs = s.
Proof.
  intros (_ & Ht & Ha). split;
    [now apply quiescent_validation | now apply quiescent_approval].
Qed.

(** The [catch] block, entered while a poll runs, leaves nothing armed. *)
Lemma catch_ends_polling (s : Poller) (e : error) :
  timers_tracked s ->
  activation s <> Idle ->
  result (poll_catch e s) = settle (result s) (Rejected e)
  /\ polling_over (poll_catch e s)
  /\ world (poll_catch e s) = world s.
Proof.
  intros Htr Hact.
  assert (Hts : timers (poll_catch e s) = []).
  { apply no_elem_nil. intros t Ht. unfold poll_catch, reject in Ht. simpl in Ht.
    destruct (abortTimeout s) as [ab|] eqn:Hab; simpl in Ht.
    - apply list_elem_of_filter in Ht as [Hne Ht].
      specialize (Htr t Ht). unfold timer_tracked in Htr.
      destruct (kind t); [congruence|]. destruct Htr as [_ Hidle]. contradiction.
    - specialize (Htr t Ht). unfold timer_tracked in Htr.
      destruct (kind t); [congruence|]. destruct Htr as [_ Hidle]. contradiction. }
  unfold polling_over. rewrite Hts.
  unfold poll_catch, reject. simpl.
  destruct (abortTimeout s); simpl; destruct (result s); repeat split.
Qed.

(** The abort callback, run between two polls, leaves nothing armed. *)
Lemma abort_ends_polling (s : Poller) (id : nat) (t : timer) (msg : string) :
  timers_tracked s ->
  activation s = Idle ->
  find_timer id s = Some t ->
  kind t = AbortTimer ->
  result (abort_callback msg (expire id s)) = settle (result s) (Rejected (Error msg))
  /\ polling_over (abort_callback msg (expire id s))
  /\ world (abort_callback msg (expire id s)) = world s.
Proof.
  intros Htr Hact Hfind Hkind.
  pose proof Hfind as Hin. unfold find_timer in Hin.
  apply find_some in Hin as [Hin Hid]. apply Nat.eqb_eq in Hid.
  apply list_elem_of_In in Hin. pose proof (Htr t Hin) as Ht.
  unfold timer_tracked in Ht. rewrite Hkind in Ht.
  assert (Hts : timers (abort_callback msg (expire id s)) = []).
  { apply no_elem_nil. intros t' Ht'. unfold abort_callback, reject in Ht'.
    simpl in Ht'. destruct (checkTimeout s) as [k|] eqn:Hck; simpl in Ht'.
    - apply list_elem_of_filter in Ht' as [Hne Ht'].
      apply list_elem_of_filter in Ht' as [Hne' Ht'].
      specialize (Htr t' Ht'). unfold timer_tracked in Htr.
      destruct (kind t'); [congruence|]. destruct Htr as [Htr _]. congruence.
    - apply list_elem_of_filter in Ht' as [Hne' Ht'].
      specialize (Htr t' Ht'). unfold timer_tracked in Htr.
      destruct (kind t'); [congruence|]. destruct Htr as [Htr _]. congruence. }
  unfold polling_over. rewrite Hts.
  unfold abort_callback, reject. simpl.
  destruct (checkTimeout s); simpl; rewrite ?Hact; destruct (result s); repeat split.
Qed.

(** X5: in [waitForValidation], a detail fetch that fails (the network,
    not a status), a body that is not JSON, and a body that is [null] all
    end in the [catch]: the promise is rejected with that error unless it
    was settled before, no timer stays armed, nothing is requested or
    logged, and the poller never acts again. *)
Theorem validation_errors_end_polling (c : Client) (data : value) (w : World)
    (evs : list event) (e : error) :
  let s := run (validation_step c) (waitForValidation c data w) evs in
  let ended s' :=
    result s' = settle (result s) (Rejected e)
    /\ polling_over s'
    /\ world s' = world s
    /\ forall more, run (validation_step c) s' more = s' in
  (activation s = AwaitFetch ->
     ended (validation_step c s (FetchSettled (Throw e))))
  /\ (forall r, activation s = AwaitJson r -> json r = Throw e ->
        ended (validation_step c s JsonSettled))
  /\ (forall r v, activation s = AwaitJson r -> json r = Normal v ->
        Get v "processed" = Throw e ->
        ended (validation_step c s JsonSettled)).
Proof.
  intros s ended.
  assert (Htr : timers_tracked s)
    by (apply run_invariant; [apply tracked_validation_step
                             |apply tracked_waitForValidation]).
  assert (Hcatch : activation s <> Idle -> ended (poll_catch e s)).
  { intros Hact. destruct (catch_ends_polling s e Htr Hact) as (H1 & H2 & H3).
    repeat split; try assumption; try apply H2.
    intros more. now apply (polling_over_is_final c (fun _ => Throw e)). }
  split; [|split].
  - intros Hact. unfold validation_step, enabled. rewrite Hact.
    apply Hcatch. congruence.
  - intros r Hact Hjson. unfold validation_step, enabled. rewrite Hact.
    unfold pollValidationStatus_parsed. rewrite Hjson. apply Hcatch. congruence.
  - intros r v Hact Hjson Hget. unfold validation_step, enabled. rewrite Hact.
    unfold pollValidationStatus_parsed, try_Get. rewrite Hjson, Hget.
    apply Hcatch. congruence.
Qed.

Lemma validation_errors_witness :
  let s := waitForValidation amo upload_abc fresh_world in
  activation s = AwaitFetch
  /\ (let s' := validation_step amo s (FetchSettled (Throw (SystemError "ECONNRESET"))) in
      result s' = Rejected (SystemError "ECONNRESET")
      /\ polling_over s'
      /\ world s' = world s).
Proof.
  intros s. split; [reflexivity|].
  destruct (proj1 (validation_errors_end_polling amo upload_abc fresh_world []
                     (SystemError "ECONNRESET")) eq_refl)
    as (H1 & H2 & H3 & _).
  split; [exact H1|]. split; [exact H2 | exact H3].
Defined.

(** X6: the same in [waitForApproval], where the [catch] is also entered
    when the extractor throws (the record has no version sub-record) and
    when the extracted file is [null] or [undefined]. *)
Theorem approval_errors_end_polling (c : Client)
    (ex : value -> completion value) (u : string) (w : World)
    (evs : list event) (e : error) :
  let s := run (approval_step c ex) (waitForApproval c u w) evs in
  let ended s' :=
    result s' = settle (result s) (Rejected e)
    /\ polling_over s'
    /\ world s' = world s
    /\ forall more, run (approval_step c ex) s' more = s' in
  (activation s = AwaitFetch ->
     ended (approval_step c ex s (FetchSettled (Throw e))))
  /\ (forall r, activation s = AwaitJson r -> json r = Throw e ->
        ended (approval_step c ex s JsonSettled))
  /\ (forall r v, activation s = AwaitJson r -> json r = Normal v ->
        ex v = Throw e ->
        ended (approval_step c ex s JsonSettled))
  /\ (forall r v file, activation s = AwaitJson r -> json r = Normal v ->
        ex v = Normal file -> Get file "status" = Throw e ->
        ended (approval_step c ex s JsonSettled)).
Proof.
  intros s ended.
  assert (Htr : timers_tracked s)
    by (apply run_invariant; [apply tracked_approval_step
                             |apply tracked_waitForApproval]).
  assert (Hcatch : activation s <> Idle -> ended (poll_catch e s)).
  { intros Hact. destruct (catch_ends_polling s e Htr Hact) as (H1 & H2 & H3).
    repeat split; try assumption; try apply H2.
    intros more. now apply (polling_over_is_final c ex). }
  split; [|split; [|split]].
  - intros Hact. unfold approval_step, enabled. rewrite Hact.
    apply Hcatch. congruence.
  - intros r Hact Hjson. unfold approval_step, enabled. rewrite Hact.
    unfold pollApprovalStatus_parsed. rewrite Hjson. apply Hcatch. congruence.
  - intros r v Hact Hjson Hex. unfold approval_step, enabled. rewrite Hact.
    unfold pollApprovalStatus_parsed. rewrite Hjson, Hex. apply Hcatch. congruence.
  - intros r v file Hact Hjson Hex Hget. unfold approval_step, enabled. rewrite Hact.
    unfold pollApprovalStatus_parsed, try_Get. rewrite Hjson, Hex, Hget.
    apply Hcatch. congruence.
Qed.

Lemma approval_errors_witness :
  let s := approval_step amo (submitAddon_extractFileFromData "listed")
             (waitForApproval amo approval_url fresh_world)
             (FetchSettled (Normal (json_response 200 "OK" unlisted_addon))) in
  (activation s = AwaitJson (json_response 200 "OK" unlisted_addon)
   /\ submitAddon_extractFileFromData "listed" unlisted_addon
      = Throw (TypeError VUndefined "file"))
  /\ (let s' := approval_step amo (submitAddon_extractFileFromData "listed") s
                  JsonSettled in
      result s' = Rejected (TypeError VUndefined "file") /\ polling_over s').
Proof.
  intros s. split; [split; reflexivity|].
  destruct (proj1 (proj2 (proj2
              (approval_errors_end_polling amo
                 (submitAddon_extractFileFromData "listed") approval_url fresh_world
                 [FetchSettled (Normal (json_response 200 "OK" unlisted_addon))]
                 (TypeError VUndefined "file"))))
              (json_response 200 "OK" unlisted_addon) unlisted_addon
              eq_refl eq_refl eq_refl)
    as (H1 & H2 & _).
  split; [exact H1 | exact H2].
Defined.

(** X7: when the abort timer of [waitForApproval] fires between two polls
    (a poll is scheduled, no detail fetch is in flight), the scheduled
    poll is cancelled and the promise is rejected with "Approval
    Timeout." unless it was settled before; the poller never acts again. *)
Theorem approval_timeout_between_polls (c : Client)
    (ex : value -> completion value) (u : string) (w : World)
    (evs : list event) (id : nat) (t : timer) :
  let s := run (approval_step c ex) (waitForApproval c u w) evs in
  activation s = Idle ->
  find_timer id s = Some t ->
  kind t = AbortTimer ->
  let s' := approval_step c ex s (TimerFired id) in
  result s' = settle (result s) (Rejected (Error "Approval Timeout."))
  /\ polling_over s'
  /\ world s' = world s
  /\ forall more, run (approval_step c ex) s' more = s'.
Proof.
  intros s Hact Hfind Hkind s'.
  assert (Htr : timers_tracked s)
    by (apply run_invariant; [apply tracked_approval_step
                             |apply tracked_waitForApproval]).
  assert (Hs' : s' = abort_callback "Approval Timeout." (expire id s)).
  { unfold s', approval_step, enabled, armed. now rewrite Hfind, Hkind. }
  rewrite Hs'.
  destruct (abort_ends_polling s id t "Approval Timeout." Htr Hact Hfind Hkind)
    as (H1 & H2 & H3).
  repeat split; try assumption; try apply H2.
  intros more. now apply (polling_over_is_final c ex).
Qed.

Lemma approval_timeout_witness :
  let pending := VObj [("current_version",
                        VObj [("file", VObj [("status", VStr "unreviewed")])])] in
  let s := run (approval_step amo (submitAddon_extractFileFromData "listed"))
             (waitForApproval amo approval_url fresh_world)
             [FetchSettled (Normal (json_response 200 "OK" pending)); JsonSettled] in
  (activation s = Idle
   /\ find_timer 0 s = Some {| timer_id := 0; kind := AbortTimer; delay := 900000 |})
  /\ (let s' := approval_step amo (submitAddon_extractFileFromData "listed") s
                  (TimerFired 0) in
      result s' = Rejected (Error "Approval Timeout.") /\ timers s' = []).
Proof.
  intros pending s. split; [split; reflexivity|].
  destruct (approval_timeout_between_polls amo
              (submitAddon_extractFileFromData "listed") approval_url fresh_world
              [FetchSettled (Normal (json_response 200 "OK" pending)); JsonSettled]
              0%nat {| timer_id := 0; kind := AbortTimer; delay := 900000 |}
              eq_refl eq_refl eq_refl)
    as (H1 & H2 & _).
  split; [exact H1 | apply H2].
Defined.

(** ** Polling until the result is there *)

Lemma filter_fresh_timer (n : nat) (ts : list timer) (t : timer) :
  Forall (fun t' => (timer_id t' < n)%nat) ts ->
  timer_id t = n ->
  filter (fun t' => timer_id t' <> n) (ts ++ [t]) = ts.
Proof.
  intros Hlt Hid. rewrite filter_app.
  rewrite (filter_singleton_False (fun t' => timer_id t' <> n) t []); [|tauto].
  rewrite app_nil_r. induction Hlt as [|t' ts Ht' _ IH]; [reflexivity|].
  rewrite filter_cons_True; [now rewrite IH|lia].
Qed.

(** The check timer of a poller that has just scheduled its next poll
    fires: the poll starts, and the timers are as before the schedule. *)
Lemma scheduled_poll_starts (step : Poller -> event -> Poller) (c : Client)
    (s : Poller) (d : Z) :
  (forall s id t, find_timer id s = Some t -> kind t = CheckTimer ->
                  step s (TimerFired id) = poll_start c (expire id s)) ->
  Forall (fun t' => (timer_id t' < next_timer s)%nat) (timers s) ->
  let s2 := (let '(id, s1) := setTimeout CheckTimer d s in
             set_activation Idle (set_checkTimeout id s1)) in
  let s3 := step s2 (TimerFired (next_timer s)) in
  activation s3 = AwaitFetch
  /\ result s3 = result s
  /\ next_timer s3 = S (next_timer s)
  /\ timers s3 = timers s
  /\ detailUrl s3 = detailUrl s
  /\ requests (trace (world s3))
     = requests (trace (world s)) ++ [fetch_request c (detailUrl s) "GET" None].
Proof.
  intros Hstep Hfresh. destruct s as [w p ts n ab ck u a]. simpl in Hfresh. simpl.
  rewrite (Hstep _ n {| timer_id := n; kind := CheckTimer; delay := d |});
    [|unfold find_timer; simpl; now apply find_fresh_timer|reflexivity].
  simpl. rewrite filter_fresh_timer by (assumption || reflexivity).
  repeat split. unfold requests. rewrite !omap_app. simpl. now rewrite app_nil_r.
Qed.

Lemma validation_check_fires c s id t :
  find_timer id s = Some t -> kind t = CheckTimer ->
  validation_step c s (TimerFired id) = poll_start c (expire id s).
Proof.
  intros Hfind Hkind. unfold validation_step, enabled, armed.
  now rewrite Hfind, Hkind.
Qed.

Lemma approval_check_fires c ex s id t :
  find_timer id s = Some t -> kind t = CheckTimer ->
  approval_step c ex s (TimerFired id) = poll_start c (expire id s).
Proof.
  intros Hfind Hkind. unfold approval_step, enabled, armed.
  now rewrite Hfind, Hkind.
Qed.

Lemma requests_ReadJson r s :
  requests (trace (world (poll_read_json r s))) = requests (trace (world s)).
Proof.
  unfold poll_read_json, set_activation, set_world. cbn [world].
  rewrite requests_emit. apply app_nil_r.
Qed.

(** One more round of an unfinished validation. *)
Lemma validation_polls_again c s r :
  activation s = AwaitFetch ->
  Forall (fun t' => (timer_id t' < next_timer s)%nat) (timers s) ->
  still_in_progress r ->
  let s3 := run (validation_step c) s
              [FetchSettled (Normal r); JsonSettled; TimerFired (next_timer s)] in
  activation s3 = AwaitFetch
  /\ result s3 = result s
  /\ next_timer s3 = S (next_timer s)
  /\ timers s3 = timers s
  /\ detailUrl s3 = detailUrl s
  /\ requests (trace (world s3))
     = requests (trace (world s)) ++ [fetch_request c (detailUrl s) "GET" None].
Proof.
  intros Hact Hfresh (Hok & v & p & Hjson & Hget & Hfalsy).
  assert (Hs2 : run (validation_step c) s [FetchSettled (Normal r); JsonSettled]
                = (let '(id, s1) := setTimeout CheckTimer (validationCheckInterval c)
                                      (poll_read_json r s) in
                   set_activation Idle (set_checkTimeout id s1))).
  { unfold run. simpl. unfold validation_step at 2. unfold enabled. rewrite Hact.
    unfold pollValidationStatus_fetched. rewrite Hok.
    unfold validation_step, enabled. simpl.
    unfold pollValidationStatus_parsed, try_Get. now rewrite Hjson, Hget, Hfalsy. }
  change (run (validation_step c) s
            [FetchSettled (Normal r); JsonSettled; TimerFired (next_timer s)])
    with (validation_step c
            (run (validation_step c) s [FetchSettled (Normal r); JsonSettled])
            (TimerFired (next_timer s))).
  rewrite Hs2.
  destruct (scheduled_poll_starts (validation_step c) c (poll_read_json r s)
              (validationCheckInterval c) (validation_check_fires c) Hfresh)
    as (H1 & H2 & H3 & H4 & H5 & H6).
  rewrite requests_ReadJson in H6. repeat split; assumption.
Qed.

Lemma approval_polls_again c ex s r :
  activation s = AwaitFetch ->
  Forall (fun t' => (timer_id t' < next_timer s)%nat) (timers s) ->
  not_yet_public ex r ->
  let s3 := run (approval_step c ex) s
              [FetchSettled (Normal r); JsonSettled; TimerFired (next_timer s)] in
  activation s3 = AwaitFetch
  /\ result s3 = result s
  /\ next_timer s3 = S (next_timer s)
  /\ timers s3 = timers s
  /\ detailUrl s3 = detailUrl s
  /\ requests (trace (world s3))
     = requests (trace (world s)) ++ [fetch_request c (detailUrl s) "GET" None].
Proof.
  intros Hact Hfresh (Hok & v & file & st & Hjson & Hex & Hget & Hne).
  assert (Hs2 : run (approval_step c ex) s [FetchSettled (Normal r); JsonSettled]
                = (let '(id, s1) := setTimeout CheckTimer (approvalCheckInterval c)
                                      (poll_read_json r s) in
                   set_activation Idle (set_checkTimeout id s1))).
  { unfold run. simpl. unfold approval_step at 2. unfold enabled. rewrite Hact.
    unfold pollApprovalStatus_fetched. rewrite Hok.
    unfold approval_step, enabled. simpl.
    unfold pollApprovalStatus_parsed, try_Get. rewrite Hjson, Hex, Hget.
    now rewrite (status_not_public st _ _ Hne). }
  change (run (approval_step c ex) s
            [FetchSettled (Normal r); JsonSettled; TimerFired (next_timer s)])
    with (approval_step c ex
            (run (approval_step c ex) s [FetchSettled (Normal r); JsonSettled])
            (TimerFired (next_timer s))).
  rewrite Hs2.
  destruct (scheduled_poll_starts (approval_step c ex) c (poll_read_json r s)
              (approvalCheckInterval c) (approval_check_fires c ex) Hfresh)
    as (H1 & H2 & H3 & H4 & H5 & H6).
  rewrite requests_ReadJson in H6. repeat split; assumption.
Qed.

(** Any number of such rounds. *)
Lemma polls_again (step : Poller -> event -> Poller) (c : Client)
    (unfinished : Response -> Prop) (rs : list Response) :
  (forall s r,
      activation s = AwaitFetch ->
      Forall (fun t' => (timer_id t' < next_timer s)%nat) (timers s) ->
      unfinished r ->
      let s3 := run step s
                  [FetchSettled (Normal r); JsonSettled; TimerFired (next_timer s)] in
      activation s3 = AwaitFetch
      /\ result s3 = result s
      /\ next_timer s3 = S (next_timer s)
      /\ timers s3 = timers s
      /\ detailUrl s3 = detailUrl s
      /\ requests (trace (world s3))
         = requests (trace (world s)) ++ [fetch_request c (detailUrl s) "GET" None]) ->
  Forall unfinished rs ->
  forall s,
    activation s = AwaitFetch ->
    Forall (fun t' => (timer_id t' < next_timer s)%nat) (timers s) ->
    let s' := run step s (rescheduled_polls (next_timer s) rs) in
    activation s' = AwaitFetch
    /\ result s' = result s
    /\ timers s' = timers s
    /\ detailUrl s' = detailUrl s
    /\ requests (trace (world s'))
       = requests (trace (world s))
           ++ replicate (length rs) (fetch_request c (detailUrl s) "GET" None).
Proof.
  intros Hround Hrs. induction Hrs as [|r rs Hr _ IH]; intros s Hact Hfresh.
  - simpl. repeat split; try assumption. now rewrite app_nil_r.
  - destruct (Hround s r Hact Hfresh Hr) as (H1 & H2 & H3 & H4 & H5 & H6).
    cbv zeta in *.
    change (run step s (rescheduled_polls (next_timer s) (r :: rs)))
      with (run step
              (run step s [FetchSettled (Normal r); JsonSettled;
                           TimerFired (next_timer s)])
              (rescheduled_polls (S (next_timer s)) rs)).
    rewrite <- H3.
    destruct (IH _ H1) as (I1 & I2 & I3 & I4 & I5).
    { rewrite H3, H4. eapply Forall_impl; [exact Hfresh|]. simpl. intros. lia. }
    rewrite I1, I2, I3, I4, I5, H2, H4, H5, H6, <- app_assoc. repeat split.
Qed.

Lemma run_app (step : Poller -> event -> Poller) s evs more :
  run step s (evs ++ more) = run step (run step s evs) more.
Proof. unfold run. apply fold_left_app. Qed.

Lemma validation_success_step c s r v :
  activation s = AwaitJson r ->
  json r = Normal v ->
  truthy (field v "processed") = true ->
  truthy (field v "valid") = true ->
  validation_step c s JsonSettled
  = set_activation Idle
      (resolve (field v "uuid")
         (log [VStr "Validation results:"; field v "validation"] s)).
Proof.
  intros Hact Hjson Hproc Hvalid.
  pose proof (field_truthy_Get _ _ Hproc) as Hp.
  unfold validation_step, enabled. rewrite Hact.
  unfold pollValidationStatus_parsed, try_Get. rewrite Hjson.
  rewrite Hp, Hproc, (Get_Normal_any _ _ _ "validation" Hp).
  rewrite (Get_Normal_any _ _ _ "valid" Hp), Hvalid.
  now rewrite (Get_Normal_any _ _ _ "uuid" Hp).
Qed.

Lemma approval_success_step c ex s r v file :
  activation s = AwaitJson r ->
  json r = Normal v ->
  ex v = Normal file ->
  Get file "status" = Normal (VStr "public") ->
  approval_step c ex s JsonSettled
  = set_activation Idle (resolve (field file "url") s).
Proof.
  intros Hact Hjson Hex Hst.
  unfold approval_step, enabled. rewrite Hact.
  unfold pollApprovalStatus_parsed, try_Get. rewrite Hjson, Hex, Hst.
  now rewrite (Get_Normal_any _ _ _ "url" Hst).
Qed.

(** X8: for every sequence of ok detail responses of an upload still in
    progress, followed by one that is processed and valid,
    [waitForValidation] polls once per response and resolves with the
    [uuid] of the last one, after exactly one request per response. *)
Theorem validation_resolves_after_polls (c : Client) (data uuid : value)
    (w : World) (rs : list Response) (rf : Response) (vf : value) :
  Get data "uuid" = Normal uuid ->
  truthy uuid = true ->
  Forall still_in_progress rs ->
  ok rf = true ->
  json rf = Normal vf ->
  truthy (field vf "processed") = true ->
  truthy (field vf "valid") = true ->
  let s := run (validation_step c) (waitForValidation c data w)
             (rescheduled_polls 1 rs ++ [FetchSettled (Normal rf); JsonSettled]) in
  result s = Resolved (field vf "uuid")
  /\ requests (trace (world s))
     = requests (trace w)
         ++ replicate (S (length rs))
              (fetch_request c
                 (apiUrlPrefix c +:+ "addons/upload/" +:+ ToString uuid +:+ "/")
                 "GET" None).
Proof.
  intros Hget Ht Hrs Hok Hjson Hproc Hvalid s.
  pose proof (waitForValidation_start c data uuid w Hget Ht) as Hs0.
  set (s0 := waitForValidation c data w) in *.
  assert (Hact0 : activation s0 = AwaitFetch) by now rewrite Hs0.
  assert (Hfresh0 : Forall (fun t' => (timer_id t' < next_timer s0)%nat) (timers s0)).
  { rewrite Hs0. simpl. repeat constructor. }
  assert (Hn0 : next_timer s0 = 1%nat) by now rewrite Hs0.
  destruct (polls_again (validation_step c) c still_in_progress rs
              (validation_polls_again c) Hrs s0 Hact0 Hfresh0)
    as (H1 & H2 & H3 & H4 & H5).
  rewrite Hn0 in *. unfold s. rewrite run_app.
  set (s1 := run (validation_step c) s0 (rescheduled_polls 1 rs)) in *.
  change (run (validation_step c) s1 [FetchSettled (Normal rf); JsonSettled])
    with (validation_step c (validation_step c s1 (FetchSettled (Normal rf)))
                          JsonSettled).
  assert (Hf : validation_step c s1 (FetchSettled (Normal rf)) = poll_read_json rf s1).
  { unfold validation_step, enabled. rewrite H1.
    unfold pollValidationStatus_fetched. now rewrite Hok. }
  rewrite Hf.
  rewrite (validation_success_step c (poll_read_json rf s1) rf vf
             eq_refl Hjson Hproc Hvalid).
  split.
  - simpl. rewrite H2, Hs0. reflexivity.
  - unfold set_activation, resolve, set_result, log, set_world. cbn [world].
    rewrite requests_emit, app_nil_r, requests_ReadJson, H5, Hs0.
    cbn [world detailUrl]. unfold fetch. rewrite !requests_emit.
    rewrite app_nil_r, <- app_assoc. reflexivity.
Qed.

Lemma validation_resolves_witness :
  (Get upload_abc "uuid" = Normal (VStr "abc")
   /\ Forall still_in_progress [json_response 200 "OK" still_processing])
  /\ result (run (validation_step amo) (waitForValidation amo upload_abc fresh_world)
               (validation_events smooth_run))
     = Resolved (VStr "abc").
Proof.
  assert (H : Forall still_in_progress [json_response 200 "OK" still_processing]).
  { repeat constructor. exists still_processing, (VBool false). now repeat split. }
  split; [split; [reflexivity | exact H]|].
  exact (proj1 (validation_resolves_after_polls amo upload_abc (VStr "abc")
                  fresh_world [json_response 200 "OK" still_processing]
                  (json_response 200 "OK" processed_valid) processed_valid
                  eq_refl eq_refl H eq_refl eq_refl eq_refl eq_refl)).
Defined.

(** X9: for every sequence of ok detail responses whose file is not yet
    "public", followed by one whose file is, [waitForApproval] polls once
    per response and resolves with the [url] of the last file, after
    exactly one request per response. *)
Theorem approval_resolves_after_polls (c : Client)
    (ex : value -> completion value) (u : string) (w : World)
    (rs : list Response) (rf : Response) (vf file : value) :
  Forall (not_yet_public ex) rs ->
  ok rf = true ->
  json rf = Normal vf ->
  ex vf = Normal file ->
  Get file "status" = Normal (VStr "public") ->
  let s := run (approval_step c ex) (waitForApproval c u w)
             (rescheduled_polls 1 rs ++ [FetchSettled (Normal rf); JsonSettled]) in
  result s = Resolved (field file "url")
  /\ requests (trace (world s))
     = requests (trace w)
         ++ replicate (S (length rs)) (fetch_request c u "GET" None).
Proof.
  intros Hrs Hok Hjson Hex Hst s.
  set (s0 := waitForApproval c u w) in *.
  assert (Hfresh0 : Forall (fun t' => (timer_id t' < next_timer s0)%nat) (timers s0)).
  { simpl. repeat constructor. }
  destruct (polls_again (approval_step c ex) c (not_yet_public ex) rs
              (approval_polls_again c ex) Hrs s0 eq_refl Hfresh0)
    as (H1 & H2 & H3 & H4 & H5).
  change (next_timer s0) with 1%nat in *. unfold s. rewrite run_app.
  set (s1 := run (approval_step c ex) s0 (rescheduled_polls 1 rs)) in *.
  change (run (approval_step c ex) s1 [FetchSettled (Normal rf); JsonSettled])
    with (approval_step c ex (approval_step c ex s1 (FetchSettled (Normal rf)))
                        JsonSettled).
  assert (Hf : approval_step c ex s1 (FetchSettled (Normal rf)) = poll_read_json rf s1).
  { unfold approval_step, enabled. rewrite H1.
    unfold pollApprovalStatus_fetched. now rewrite Hok. }
  rewrite Hf.
  rewrite (approval_success_step c ex (poll_read_json rf s1) rf vf file
             eq_refl Hjson Hex Hst).
  split.
  - simpl. rewrite H2. reflexivity.
  - unfold set_activation, resolve, set_result. cbn [world].
    rewrite requests_ReadJson, H5.
    unfold s0, waitForApproval, poll_start, setTimeout, set_abortTimeout,
      set_activation, set_world, set_timers, new_Poller.
    cbn [world detailUrl]. unfold fetch. rewrite !requests_emit.
    rewrite app_nil_r, <- app_assoc. reflexivity.
Qed.

Lemma approval_resolves_witness :
  let pending := VObj [("current_version",
                        VObj [("file", VObj [("status", VStr "unreviewed")])])] in
  Forall (not_yet_public (submitAddon_extractFileFromData "listed"))
         [json_response 200 "OK" pending]
  /\ result (run (approval_step amo (submitAddon_extractFileFromData "listed"))
               (waitForApproval amo approval_url fresh_world)
               [FetchSettled (Normal (json_response 200 "OK" pending)); JsonSettled;
                TimerFired 1;
                FetchSettled (Normal (json_response 200 "OK" listed_addon));
                JsonSettled])
     = Resolved (VStr "https://addons.mozilla.org/the.xpi").
Proof.
  intros pending.
  assert (H : Forall (not_yet_public (submitAddon_extractFileFromData "listed"))
                     [json_response 200 "OK" pending]).
  { repeat constructor.
    exists pending, (VObj [("status", VStr "unreviewed")]), (VStr "unreviewed").
    repeat split. discriminate. }
  split; [exact H|].
  exact (proj1 (approval_resolves_after_polls amo
                  (submitAddon_extractFileFromData "listed") approval_url fresh_world
                  [json_response 200 "OK" pending]
                  (json_response 200 "OK" listed_addon) listed_addon public_file
                  H eq_refl eq_refl eq_refl eq_refl)).
Defined.

(** ** What the submit requests carry *)

Lemma posted_props_cons (k : string) (x : value) (rest : list (string * value)) :
  posted_props ((k, x) :: rest)
  = match x with
    | VUndefined => posted_props rest
    | _ => (k, posted x) :: posted_props rest
    end.
Proof. now destruct x. Qed.

Lemma obj_lookup_posted_None (k : string) (props : list (string * value)) :
  obj_lookup k props = None -> obj_lookup k (posted_props props) = None.
Proof.
  induction props as [|[k' x] rest IH]; [reflexivity|].
  simpl. destruct (String.eqb k' k) eqn:E; [discriminate|].
  intros H. rewrite posted_props_cons.
  destruct x; simpl; rewrite ?E; now apply IH.
Qed.

(** What [JSON.stringify] makes of the bindings of an object. *)
Lemma obj_lookup_posted (k : string) (props : list (string * value)) :
  NoDup props.*1 ->
  obj_lookup k (posted_props props)
  = obj_lookup k props ≫= posted_binding.
Proof.
  induction props as [|[k' x] rest IH]; [reflexivity|].
  intros Hnd. apply NoDup_cons in Hnd as [Hnotin Hnd]. simpl in Hnotin.
  rewrite posted_props_cons. simpl.
  destruct (String.eqb_spec k' k) as [->|Hne].
  - destruct x; simpl; rewrite ?String.eqb_refl; try reflexivity.
    apply obj_lookup_posted_None, obj_lookup_None_notin, Hnotin.
  - apply String.eqb_neq in Hne.
    destruct x; simpl; rewrite ?Hne; now apply IH.
Qed.

Lemma obj_set_keys (k : string) (v : value) (props : list (string * value)) :
  NoDup props.*1 -> NoDup (obj_set k v props).*1.
Proof.
  assert (Hin : forall l k0, k0 ∈ (obj_set k v l).*1 -> k0 = k \/ k0 ∈ l.*1).
  { induction l as [|[k' v'] l IHl]; simpl; intros k0 H.
    - apply list_elem_of_singleton in H. now left.
    - destruct (String.eqb_spec k' k) as [->|Hne]; simpl in H.
      + now right.
      + apply elem_of_cons in H as [->|H]; [right; left|].
        destruct (IHl _ H) as [->|H']; [now left|right; now right]. }
  induction props as [|[k' v'] rest IH]; simpl; intros Hnd.
  - apply NoDup_singleton.
  - apply NoDup_cons in Hnd as [Hnotin Hnd]. simpl in Hnotin.
    destruct (String.eqb_spec k' k) as [->|Hne]; simpl.
    + now apply NoDup_cons.
    + apply NoDup_cons. split; [|now apply IH].
      intros H. destruct (Hin _ _ H) as [->|H']; [now apply Hne|now apply Hnotin].
Qed.

(** An object literal with a spread has each key once. *)
Lemma spread_keys (target : list (string * value)) (source : value) :
  NoDup target.*1 -> NoDup (spread target source).*1.
Proof.
  unfold spread. generalize (own_props source) as src. intros src. revert target.
  induction src as [|[k v] src IH]; intros target Hnd; simpl; [exact Hnd|].
  apply IH, obj_set_keys, Hnd.
Qed.

(** X10: the JSON text a submit request posts binds every key of the
    metadata object to what [JSON.stringify] makes of the metadata's
    value (nothing, where the value is [undefined]); the only other
    binding is the generated one, [version: {upload: uuid}] for a new
    add-on and [upload: uuid] for a new version, present when the
    metadata has no such key, and without the [upload] when the id is
    [undefined]. The request is a POST with the JSON content type. *)
Theorem submit_body_bindings (c : Client) (meta : list (string * value))
    (uuid : value) (addonId : string) (reply : promise Response) (w : World) :
  NoDup meta.*1 ->
  (exists jsonData,
      doNewAddonSubmit c (VObj meta) uuid reply w
      = (reply,
         fetch c (apiUrlPrefix c +:+ "addons/addon/") "POST"
               (Some (StringBody (VObj jsonData))) w)
      /\ forall k,
           obj_lookup k (posted_props jsonData)
           = match obj_lookup k meta with
             | Some v => posted_binding v
             | None => if String.eqb "version" k
                       then Some (VObj match uuid with
                                       | VUndefined => []
                                       | _ => [("upload", posted uuid)]
                                       end)
                       else None
             end)
  /\ (exists jsonData,
      doNewVersionSubmit c addonId (VObj meta) uuid reply w
      = (reply,
         fetch c (apiUrlPrefix c +:+ "addons/addon/" +:+ addonId +:+ "/versions/")
               "POST" (Some (StringBody (VObj jsonData))) w)
      /\ forall k,
           obj_lookup k (posted_props jsonData)
           = match obj_lookup k meta with
             | Some v => posted_binding v
             | None => if String.eqb "upload" k then posted_binding uuid else None
             end)
  /\ In ("Content-Type", HText "application/json")
        (headers (fetch_request c (apiUrlPrefix c +:+ "addons/addon/") "POST"
                    (Some (StringBody (VObj meta))))).
Proof.
  intros Hnd. split; [|split].
  - eexists. split; [reflexivity|]. intros k.
    rewrite obj_lookup_posted
      by (apply spread_keys; apply (bool_decide_unpack _); reflexivity).
    rewrite (obj_lookup_spread _ _ _ Hnd).
    destruct (obj_lookup k meta); [reflexivity|].
    cbn [obj_lookup]. destruct (String.eqb "version" k); [|reflexivity].
    now destruct uuid.
  - eexists. split; [reflexivity|]. intros k.
    rewrite obj_lookup_posted
      by (apply spread_keys; apply (bool_decide_unpack _); reflexivity).
    rewrite (obj_lookup_spread _ _ _ Hnd).
    destruct (obj_lookup k meta); [reflexivity|].
    cbn [obj_lookup]. now destruct (String.eqb "upload" k).
  - simpl. tauto.
Qed.

Lemma submit_body_witness :
  NoDup [("name", VStr "x"); ("summary", VUndefined)].*1
  /\ exists jsonData,
       doNewVersionSubmit amo "my-addon"
         (VObj [("name", VStr "x"); ("summary", VUndefined)]) VUndefined
         Pending fresh_world
       = (Pending,
          fetch amo (apiUrlPrefix amo +:+ "addons/addon/" +:+ "my-addon" +:+ "/versions/")
                "POST" (Some (StringBody (VObj jsonData))) fresh_world)
       /\ forall k,
            obj_lookup k (posted_props jsonData)
            = match obj_lookup k [("name", VStr "x"); ("summary", VUndefined)] with
              | Some v => posted_binding v
              | None => if String.eqb "upload" k
                        then posted_binding VUndefined else None
              end.
Proof.
  assert (Hnd : NoDup [("name", VStr "x"); ("summary", VUndefined)].*1).
  { apply (bool_decide_unpack _). reflexivity. }
  split; [exact Hnd|].
  exact (proj1 (proj2 (submit_body_bindings amo
                         [("name", VStr "x"); ("summary", VUndefined)] VUndefined
                         "my-addon" Pending fresh_world Hnd))).
Defined.

(** The text posted for a version whose upload id is [undefined] has no
    [upload] at all. *)
Example posted_without_upload :
  posted (VObj (spread [("upload", VUndefined)] (VObj [("name", VStr "x")])))
  = VObj [("name", VStr "x")]
  /\ posted (VObj (spread [("version", VObj [("upload", VUndefined)])]
                          (VObj [("name", VStr "x")])))
     = VObj [("version", VObj []); ("name", VStr "x")].
Proof. split; reflexivity. Qed.

(** Metadata that is no object, array or string adds nothing. *)
Lemma submit_body_plain_metadata (uuid meta : value) :
  own_props meta = [] ->
  spread [("version", VObj [("upload", uuid)])] meta
  = [("version", VObj [("upload", uuid)])]
  /\ spread [("upload", uuid)] meta = [("upload", uuid)].
Proof. intros H. unfold spread. now rewrite H. Qed.

(** ** The detail URL *)



(** ** What a whole workflow does to the world *)

Lemma ocr_refl c w : only_client_requests c w w.
Proof. exists []. split; [now rewrite app_nil_r|constructor]. Qed.

Lemma ocr_trans c w1 w2 w3 :
  only_client_requests c w1 w2 -> only_client_requests c w2 w3 ->
  only_client_requests c w1 w3.
Proof.
  intros (n1 & H1 & F1) (n2 & H2 & F2). exists (n1 ++ n2). split.
  - now rewrite H2, H1, app_assoc.
  - now apply Forall_app.
Qed.

Lemma ocr_same_requests c w w' :
  requests (trace w') = requests (trace w) -> only_client_requests c w w'.
Proof. intros H. exists []. split; [now rewrite app_nil_r|constructor]. Qed.

Lemma made_by_fetch_request c u m b : made_by c (fetch_request c u m b).
Proof. unfold made_by. now destruct b as [[]|]. Qed.

Lemma ocr_fetch c u m b w : only_client_requests c w (fetch c u m b w).
Proof.
  exists [fetch_request c u m b]. split.
  - unfold fetch. rewrite !requests_emit. now rewrite app_nil_r.
  - apply Forall_singleton, made_by_fetch_request.
Qed.

Lemma ocr_then {A B} c (p : Chain A) (f : A -> Chain B) w :
  only_client_requests c w (snd (p w)) ->
  (forall a w', only_client_requests c w' (snd (f a w'))) ->
  only_client_requests c w (snd (then_ p f w)).
Proof.
  intros Hp Hf. unfold then_. destruct (p w) as [[|a|e] w']; simpl in *;
    [exact Hp| |exact Hp].
  eapply ocr_trans; [exact Hp|apply Hf].
Qed.

Lemma ocr_run c (step : Poller -> event -> Poller) s evs :
  (forall s ev,
      detailUrl (step s ev) = detailUrl s
      /\ (requests (trace (world (step s ev))) = requests (trace (world s))
          \/ requests (trace (world (step s ev)))
             = requests (trace (world s)) ++ [fetch_request c (detailUrl s) "GET" None])) ->
  only_client_requests c (world s) (world (run step s evs)).
Proof.
  intros Hstep.
  destruct (run_requests step (fun u => fetch_request c u "GET" None) s evs Hstep)
    as [n Hn].
  eexists. split; [exact Hn|].
  apply Forall_replicate, made_by_fetch_request.
Qed.

Lemma ocr_getJson c r w : only_client_requests c w (snd (getJson r w)).
Proof.
  apply ocr_same_requests. unfold getJson.
  destruct (_ || _); [reflexivity|].
  destruct (json r); [destruct (negb (ok r))|]; cbn [snd];
    rewrite ?requests_emit, ?app_nil_r; reflexivity.
Qed.

Lemma ocr_promise_of {A} c (e : completion A) w :
  only_client_requests c w (snd (promise_of e w)).
Proof. destruct e; apply ocr_refl. Qed.

Lemma ocr_saveFile c r io w : only_client_requests c w (snd (saveFile c r io w)).
Proof.
  apply ocr_same_requests. unfold saveFile.
  destruct (ok r), (body r), io; reflexivity.
Qed.

Lemma ocr_doUploadSubmit c xpi channel reply w :
  only_client_requests c w (snd (doUploadSubmit c xpi channel reply w)).
Proof.
  unfold doUploadSubmit. destruct (files w !! xpi); [apply ocr_fetch|apply ocr_refl].
Qed.

Lemma ocr_waitForValidation c evs data w :
  only_client_requests c w (snd (waitForValidation_promise c evs data w)).
Proof.
  unfold waitForValidation_promise. simpl.
  destruct (await_poller_prefix (validation_step c) (waitForValidation c data w) evs)
    as [k ->].
  eapply ocr_trans; [|apply ocr_run, validation_step_requests].
  unfold waitForValidation. destruct (Get data "uuid") as [uuid|e]; [|apply ocr_refl].
  destruct (negb (truthy uuid)); [apply ocr_refl|apply ocr_fetch].
Qed.

Lemma ocr_waitForApproval c ex evs u w :
  only_client_requests c w (snd (waitForApproval_promise c ex evs u w)).
Proof.
  unfold waitForApproval_promise. simpl.
  destruct (await_poller_prefix (approval_step c ex) (waitForApproval c u w) evs)
    as [k ->].
  eapply ocr_trans; [|apply ocr_run, approval_step_requests].
  apply ocr_fetch.
Qed.

Lemma ocr_submitAddon c xpi channel metaDataJSON net w0 :
  only_client_requests c w0 (snd (submitAddon c xpi channel metaDataJSON net w0)).
Proof.
  unfold submitAddon.
  repeat (apply ocr_then; [|intros ? ?]);
    first [apply ocr_doUploadSubmit | apply ocr_getJson | apply ocr_waitForValidation
          | apply ocr_fetch | apply ocr_promise_of | apply ocr_waitForApproval
          | apply ocr_saveFile].
Qed.

Lemma ocr_submitVersion c xpi channel addonId metaDataJSON net w0 :
  only_client_requests c w0
    (snd (submitVersion c xpi channel addonId metaDataJSON net w0)).
Proof.
  unfold submitVersion.
  repeat (apply ocr_then; [|intros ? ?]);
    first [apply ocr_doUploadSubmit | apply ocr_getJson | apply ocr_waitForValidation
          | apply ocr_fetch | apply ocr_promise_of | apply ocr_waitForApproval
          | apply ocr_saveFile].
Qed.

(** X12: every request a run of [submitAddon] or [submitVersion] adds to
    the world, in any stage and whatever the network answers, is one
    built by [this.fetch]: signed with the client's key and secret, with
    the headers that go with its body. *)
Theorem workflows_make_only_signed_requests (c : Client)
    (xpi channel addonId : string) (metaDataJSON : value) (net : Network)
    (w0 : World) :
  only_client_requests c w0 (snd (submitAddon c xpi channel metaDataJSON net w0))
  /\ only_client_requests c w0
       (snd (submitVersion c xpi channel addonId metaDataJSON net w0))
  /\ forall rq, made_by c rq ->
       In ("Authorization",
           HJwt (JWT (apiKey c) (apiSecret c) "HS256" (apiJwtExpiresIn c)))
          (headers rq).
Proof.
  split; [apply ocr_submitAddon|]. split; [apply ocr_submitVersion|].
  intros rq ->. unfold fetch_request. simpl.
  destruct (req_body rq) as [[]|]; simpl; tauto.
Qed.

(** *** Files *)

Lemma files_emit e w : files (emit e w) = files w.
Proof. reflexivity. Qed.

Lemma validation_step_files c s ev :
  files (world (validation_step c s ev)) = files (world s).
Proof.
  destruct s as [w p ts n ab ck u a]. unfold_poller. simpl.
  break_step; reflexivity.
Qed.

Lemma approval_step_files c ex s ev :
  files (world (approval_step c ex s ev)) = files (world s).
Proof.
  destruct s as [w p ts n ab ck u a]. unfold_poller. simpl.
  break_step; reflexivity.
Qed.

Lemma await_poller_files step s evs :
  (forall s ev, files (world (step s ev)) = files (world s)) ->
  files (world (await_poller step s evs)) = files (world s).
Proof.
  intros Hstep. revert s. induction evs as [|ev evs IH]; intros s; simpl.
  - now destruct (settled (result s)).
  - destruct (settled (result s)); [reflexivity|]. now rewrite IH, Hstep.
Qed.

(** A stage that leaves the disk alone. *)
Lemma files_then {A B} (P : World -> World -> Prop) (p : Chain A)
    (f : A -> Chain B) w :
  (forall w1 w2 w3, P w1 w2 -> P w2 w3 -> P w1 w3) ->
  P w (snd (p w)) ->
  (forall a w', P w' (snd (f a w'))) ->
  P w (snd (then_ p f w)).
Proof.
  intros Htrans Hp Hf. unfold then_. destruct (p w) as [[|a|e] w']; simpl in *;
    [exact Hp| |exact Hp].
  eapply Htrans; [exact Hp|apply Hf].
Qed.

Lemma files_waitForValidation c evs data w :
  files (snd (waitForValidation_promise c evs data w)) = files w.
Proof.
  unfold waitForValidation_promise. simpl.
  rewrite await_poller_files by apply validation_step_files.
  unfold waitForValidation. destruct (Get data "uuid") as [uuid|e]; [|reflexivity].
  now destruct (negb (truthy uuid)).
Qed.

Lemma files_waitForApproval c ex evs u w :
  files (snd (waitForApproval_promise c ex evs u w)) = files w.
Proof.
  unfold waitForApproval_promise. simpl.
  now rewrite await_poller_files by apply approval_step_files.
Qed.

Lemma files_getJson r w : files (snd (getJson r w)) = files w.
Proof.
  unfold getJson. destruct (_ || _); [reflexivity|].
  destruct (json r); simpl; [destruct (negb (ok r))|]; reflexivity.
Qed.

Lemma files_doUploadSubmit c xpi channel reply w :
  files (snd (doUploadSubmit c xpi channel reply w)) = files w.
Proof. unfold doUploadSubmit. now destruct (files w !! xpi). Qed.

Lemma files_saveFile c r io w path :
  path <> downloadDir c +:+ "/the.xpi" ->
  files (snd (saveFile c r io w)) !! path = files w !! path.
Proof.
  intros Hne. unfold saveFile.
  destruct (ok r), (body r), io; simpl; try reflexivity;
    now apply lookup_insert_ne.
Qed.

(** X13: a run of [submitAddon] or [submitVersion] changes no file other
    than [downloadDir/the.xpi], whatever the network answers and however
    the run ends. *)
Theorem workflows_write_one_file (c : Client) (xpi channel addonId : string)
    (metaDataJSON : value) (net : Network) (w0 : World) (path : string) :
  path <> downloadDir c +:+ "/the.xpi" ->
  files (snd (submitAddon c xpi channel metaDataJSON net w0)) !! path
  = files w0 !! path
  /\ files (snd (submitVersion c xpi channel addonId metaDataJSON net w0)) !! path
     = files w0 !! path.
Proof.
  intros Hne.
  set (P := fun w w' : World => files w' !! path = files w !! path).
  assert (Htrans : forall w1 w2 w3, P w1 w2 -> P w2 w3 -> P w1 w3).
  { unfold P. intros w1 w2 w3 H1 H2. now rewrite H2. }
  assert (Heq : forall w w', files w' = files w -> P w w').
  { unfold P. now intros w w' ->. }
  split.
  - change (P w0 (snd (submitAddon c xpi channel metaDataJSON net w0))).
    unfold submitAddon.
    repeat (apply files_then; [exact Htrans| |intros ? ?]);
      first [apply Heq, files_doUploadSubmit | apply Heq, files_getJson
            | apply Heq, files_waitForValidation | apply Heq, files_waitForApproval
            | apply Heq; reflexivity
            | apply Heq; unfold submitAddon_getDetailUrl, promise_of;
              match goal with |- context [Get ?d ?k] => destruct (Get d k) end;
              reflexivity
            | unfold P; now apply files_saveFile].
  - change (P w0 (snd (submitVersion c xpi channel addonId metaDataJSON net w0))).
    unfold submitVersion.
    repeat (apply files_then; [exact Htrans| |intros ? ?]);
      first [apply Heq, files_doUploadSubmit | apply Heq, files_getJson
            | apply Heq, files_waitForValidation | apply Heq, files_waitForApproval
            | apply Heq; reflexivity
            | apply Heq; unfold submitVersion_getDetailUrl, promise_of;
              match goal with |- context [Get ?d ?k] => destruct (Get d k) end;
              reflexivity
            | unfold P; now apply files_saveFile].
Qed.

Lemma workflows_write_one_file_witness :
  "addon.xpi" <> downloadDir amo +:+ "/the.xpi"
  /\ files (snd (submitAddon amo "addon.xpi" "listed" (VObj []) smooth_run dev_world))
       !! "addon.xpi"
     = files dev_world !! "addon.xpi".
Proof.
  assert (H : "addon.xpi" <> downloadDir amo +:+ "/the.xpi") by discriminate.
  split; [exact H|].
  exact (proj1 (workflows_write_one_file amo "addon.xpi" "listed" "" (VObj [])
                  smooth_run dev_world "addon.xpi" H)).
Defined.

(** *** The upload comes first *)

Lemma ocr_then_from {A B} c (p : Chain A) (f : A -> Chain B) w wb :
  only_client_requests c wb (snd (p w)) ->
  (forall a w', only_client_requests c w' (snd (f a w'))) ->
  only_client_requests c wb (snd (then_ p f w)).
Proof.
  intros Hp Hf. unfold then_. destruct (p w) as [[|a|e] w']; simpl in *;
    [exact Hp| |exact Hp].
  eapply ocr_trans; [exact Hp|apply Hf].
Qed.

(** X14: without the package file a workflow ends before anything is
    requested or logged; with it, and for a client that can sign, the
    first request of the run is the POST of the form (channel and file)
    to [apiUrlPrefix addons/upload/], and everything else follows it. *)
Theorem upload_comes_first (c : Client) (xpi channel addonId : string)
    (metaDataJSON : value) (net : Network) (w0 : World) :
  let upload :=
    fetch_request c (apiUrlPrefix c +:+ "addons/upload/") "POST"
      (Some (FormBody [("channel", FText channel); ("upload", FFile xpi)])) in
  (files w0 !! xpi = None ->
     submitAddon c xpi channel metaDataJSON net w0
     = (Rejected (SystemError "ENOENT"), w0)
     /\ submitVersion c xpi channel addonId metaDataJSON net w0
        = (Rejected (SystemError "ENOENT"), w0))
  /\ (forall bytes, can_sign c -> files w0 !! xpi = Some bytes ->
      (exists rest,
          requests (trace (snd (submitAddon c xpi channel metaDataJSON net w0)))
          = requests (trace w0) ++ upload :: rest)
      /\ (exists rest,
          requests (trace (snd (submitVersion c xpi channel addonId metaDataJSON
                                              net w0)))
          = requests (trace w0) ++ upload :: rest)).
Proof.
  intros upload. split.
  - intros Hnone. unfold submitAddon, submitVersion, then_, doUploadSubmit.
    rewrite Hnone. split; reflexivity.
  - intros bytes _ Hsome.
    assert (Hup : requests (trace (snd (doUploadSubmit c xpi channel
                                          (upload_reply net) w0)))
                  = requests (trace w0) ++ [upload]).
    { unfold doUploadSubmit. rewrite Hsome. unfold fetch_promise, fetch. cbn [snd].
      rewrite !requests_emit. now rewrite app_nil_r. }
    split.
    + assert (H : only_client_requests c
                    (snd (doUploadSubmit c xpi channel (upload_reply net) w0))
                    (snd (submitAddon c xpi channel metaDataJSON net w0))).
      { unfold submitAddon.
        repeat (apply ocr_then_from; [|intros ? ?]);
          first [apply ocr_refl | apply ocr_getJson | apply ocr_waitForValidation
                | apply ocr_fetch | apply ocr_promise_of | apply ocr_waitForApproval
                | apply ocr_saveFile]. }
      destruct H as (rest & Hrest & _). exists rest.
      now rewrite Hrest, Hup, <- app_assoc.
    + assert (H : only_client_requests c
                    (snd (doUploadSubmit c xpi channel (upload_reply net) w0))
                    (snd (submitVersion c xpi channel addonId metaDataJSON net w0))).
      { unfold submitVersion.
        repeat (apply ocr_then_from; [|intros ? ?]);
          first [apply ocr_refl | apply ocr_getJson | apply ocr_waitForValidation
                | apply ocr_fetch | apply ocr_promise_of | apply ocr_waitForApproval
                | apply ocr_saveFile]. }
      destruct H as (rest & Hrest & _). exists rest.
      now rewrite Hrest, Hup, <- app_assoc.
Qed.

Lemma upload_comes_first_witness :
  (files fresh_world !! "addon.xpi" = None
   /\ submitAddon amo "addon.xpi" "listed" (VObj []) smooth_run fresh_world
      = (Rejected (SystemError "ENOENT"), fresh_world))
  /\ (can_sign amo
      /\ exists rest,
           requests (trace (snd (submitAddon amo "addon.xpi" "listed" (VObj [])
                                             smooth_run dev_world)))
           = requests (trace dev_world)
               ++ fetch_request amo (apiUrlPrefix amo +:+ "addons/upload/") "POST"
                    (Some (FormBody [("channel", FText "listed");
                                     ("upload", FFile "addon.xpi")]))
                  :: rest).
Proof.
  assert (Hsign : can_sign amo) by discriminate.
  split; [split; [reflexivity|] | split; [exact Hsign|]].
  - exact (proj1 (proj1 (upload_comes_first amo "addon.xpi" "listed" "" (VObj [])
                           smooth_run fresh_world) eq_refl)).
  - eapply (proj1 (proj2 (upload_comes_first amo "addon.xpi" "listed" "" (VObj [])
                            smooth_run dev_world) _ Hsign _)).
    Unshelve. 2: reflexivity.
Defined.

(** ** The timeout while a fetch is in flight, in waitForApproval *)

Lemma approval_abort_fires (c : Client) (ex : value -> completion value)
    (s : Poller) (id : nat) (t : timer) :
  find_timer id s = Some t ->
  kind t = AbortTimer ->
  approval_step c ex s (TimerFired id)
  = abort_callback "Approval Timeout." (expire id s).
Proof.
  intros Hfind Hkind. unfold approval_step, enabled, armed.
  now rewrite Hfind, Hkind.
Qed.

(** X15: when the abort timer of [waitForApproval] fires while a detail
    fetch is in flight, the promise is rejected with "Approval Timeout."
    but the polling goes on: the response, not yet public, schedules the
    next poll, and when its timer fires another detail request is made. *)
Theorem approval_timeout_during_fetch (c : Client)
    (ex : value -> completion value) (s : Poller) (id : nat) (t : timer)
    (r : Response) :
  activation s = AwaitFetch ->
  result s = Pending ->
  find_timer id s = Some t ->
  kind t = AbortTimer ->
  Forall (fun t' => (timer_id t' < next_timer s)%nat) (timers s) ->
  not_yet_public ex r ->
  let s1 := approval_step c ex s (TimerFired id) in
  let s3 := run (approval_step c ex) s1
              [FetchSettled (Normal r); JsonSettled; TimerFired (next_timer s)] in
  result s1 = Rejected (Error "Approval Timeout.")
  /\ result s3 = Rejected (Error "Approval Timeout.")
  /\ activation s3 = AwaitFetch
  /\ requests (trace (world s3))
     = requests (trace (world s)) ++ [fetch_request c (detailUrl s) "GET" None].
Proof.
  intros Hact Hres Hfind Hkind Hfresh Hr s1 s3.
  assert (Hs1 : s1 = abort_callback "Approval Timeout." (expire id s))
    by exact (approval_abort_fires c ex s id t Hfind Hkind).
  assert (Hr1 : result s1 = Rejected (Error "Approval Timeout.")).
  { rewrite Hs1. unfold abort_callback, reject. simpl.
    destruct (checkTimeout s); simpl; now rewrite Hres. }
  assert (Ha1 : activation s1 = AwaitFetch).
  { rewrite Hs1. unfold abort_callback, reject. simpl.
    destruct (checkTimeout s); exact Hact. }
  assert (Hn1 : next_timer s1 = next_timer s).
  { rewrite Hs1. unfold abort_callback, reject. simpl.
    now destruct (checkTimeout s). }
  assert (Hw1 : world s1 = world s /\ detailUrl s1 = detailUrl s).
  { rewrite Hs1. unfold abort_callback, reject. simpl.
    now destruct (checkTimeout s). }
  assert (Hf1 : Forall (fun t' => (timer_id t' < next_timer s1)%nat) (timers s1)).
  { rewrite Hn1, Hs1. unfold abort_callback, reject. simpl.
    destruct (checkTimeout s); simpl; repeat apply Forall_filter_timers; exact Hfresh. }
  destruct (approval_polls_again c ex s1 r Ha1 Hf1 Hr) as (H1 & H2 & _ & _ & _ & H6).
  rewrite Hn1 in *. fold s3 in H1, H2, H6. destruct Hw1 as [Hw Hu].
  split; [exact Hr1|]. split; [congruence|]. split; [exact H1|].
  now rewrite H6, Hw, Hu.
Qed.

Lemma approval_timeout_during_fetch_witness :
  let pending := VObj [("current_version",
                        VObj [("file", VObj [("status", VStr "unreviewed")])])] in
  let s0 := waitForApproval amo approval_url fresh_world in
  (activation s0 = AwaitFetch
   /\ not_yet_public (submitAddon_extractFileFromData "listed")
        (json_response 200 "OK" pending))
  /\ (let s3 := run (approval_step amo (submitAddon_extractFileFromData "listed")) s0
                  [TimerFired 0; FetchSettled (Normal (json_response 200 "OK" pending));
                   JsonSettled; TimerFired 1] in
      result s3 = Rejected (Error "Approval Timeout.")
      /\ activation s3 = AwaitFetch).
Proof.
  intros pending s0.
  assert (H : not_yet_public (submitAddon_extractFileFromData "listed")
                (json_response 200 "OK" pending)).
  { split; [reflexivity|].
    exists pending, (VObj [("status", VStr "unreviewed")]), (VStr "unreviewed").
    repeat split. discriminate. }
  split; [split; [reflexivity | exact H]|].
  destruct (approval_timeout_during_fetch amo
              (submitAddon_extractFileFromData "listed") s0 0%nat
              {| timer_id := 0; kind := AbortTimer; delay := 900000 |}
              (json_response 200 "OK" pending)
              eq_refl eq_refl eq_refl eq_refl)
    as (_ & H2 & H3 & _); [repeat constructor | exact H |].
  split; [exact H2 | exact H3].
Defined.

(** ** The timeout between two polls, in waitForValidation *)

Lemma timeout_between_polls_witness :
  let s := run (validation_step amo) (waitForValidation amo upload_abc fresh_world)
             [FetchSettled (Normal (json_response 200 "OK" still_processing));
              JsonSettled] in
  (activation s = Idle
   /\ find_timer 0 s = Some {| timer_id := 0; kind := AbortTimer; delay := 300000 |})
  /\ (let s' := validation_step amo s (TimerFired 0) in
      result s' = Rejected (Error "Validation Timeout.")
      /\ timers s' = []
      /\ world s' = world s).
Proof.
  intros s. split; [split; reflexivity|].
  destruct (timeout_between_polls_ends_polling amo upload_abc fresh_world
              [FetchSettled (Normal (json_response 200 "OK" still_processing));
               JsonSettled]
              0%nat {| timer_id := 0; kind := AbortTimer; delay := 300000 |}
              eq_refl eq_refl eq_refl)
    as (H1 & H2 & H3 & _).
  split; [exact H1|]. split; [exact H2 | exact H3].
Defined.
